(** * The reusable [Cache] component of exercise2_3_reusable_components.py

    A shallow embedding of [EvictionPolicy], [CacheEntry] and [Cache]
    (together with the part of [Logger] that the cache calls), followed by
    the properties of the cache that the specification states.

    Modelling conventions.
    - Python [int] is [Z].  A [datetime] is a [Z] counting the microseconds
      from [datetime.min], and a [timedelta] is a [Z] counting microseconds;
      both raise [OverflowError] out of their range.
    - Every call of [datetime.now()] is one reading of a clock
      [clk : nat -> Z]; the world counts the readings made so far.
    - [self._entries] is a Python [dict]: an association list in insertion
      order, because [min] over its keys breaks ties by iteration order.
    - [self._stats] is a record of the five counters.
    - A method is a state transformer on the [World] that may raise.
    - [self._lock] is a re-entrant lock taken by every public method; the
      model is sequential, so [with self._lock:] is the identity.
    - a Python [float] is a binary64 number: a primitive float. *)

From Stdlib Require Import ZArith QArith List String Bool Lia.
From Stdlib Require Import DecimalString.
From Stdlib Require Import PrimFloat FloatOps SpecFloat Uint63.
Import ListNotations.

Local Open Scope string_scope.
Local Open Scope Z_scope.

(** ** Python values and exceptions *)

#[warnings="-register-all"]
Inductive pyobj : Type :=
  | PyNone
  | PyBool (b : bool)
  | PyInt (n : Z)
  | PyStr (s : string)
  | PyList (xs : list pyobj).

(** [v is None] *)
Definition is_None (v : pyobj) : bool :=
  match v with PyNone => true | _ => false end.

Inductive exn : Type :=
  | KeyError (k : string)
  | ValueError (msg : string)
  | ZeroDivisionError
  | OverflowError.

Inductive result (A : Type) : Type :=
  | Ok (a : A)
  | Raise (e : exn).
Arguments Ok {A} a.
Arguments Raise {A} e.

(** [str(n)] for an int *)
Definition str_of_int (n : Z) : string :=
  NilZero.string_of_int (Z.to_int n).

(** ** dict with string keys, in insertion order *)

Module PyDict.
Section Dict.
Context {V : Type}.

Definition t := list (string * V).

Definition empty : t := [].

(** [len(d)] *)
Definition len (d : t) : Z := Z.of_nat (List.length d).

(** [k in d] *)
Fixpoint contains (k : string) (d : t) : bool :=
  match d with
  | [] => false
  | (k', _) :: d' => if String.eqb k k' then true else contains k d'
  end.

(** [d.get(k)]; [d[k]] raises [KeyError] where this is [None] *)
Fixpoint lookup (k : string) (d : t) : option V :=
  match d with
  | [] => None
  | (k', v) :: d' => if String.eqb k k' then Some v else lookup k d'
  end.

(** [d[k] = v]: in place when [k] is present, at the end otherwise *)
Fixpoint setitem (k : string) (v : V) (d : t) : t :=
  match d with
  | [] => [(k, v)]
  | (k', v') :: d' =>
      if String.eqb k k' then (k', v) :: d' else (k', v') :: setitem k v d'
  end.

(** mutation of the object stored under [k], the dict itself untouched *)
Fixpoint update (k : string) (f : V -> V) (d : t) : t :=
  match d with
  | [] => []
  | (k', v') :: d' =>
      if String.eqb k k' then (k', f v') :: d' else (k', v') :: update k f d'
  end.

(** [del d[k]] for a key that is present *)
Definition delitem (k : string) (d : t) : t :=
  filter (fun kv => negb (String.eqb k (fst kv))) d.

(** [d.keys()] in iteration order *)
Definition keys (d : t) : list string := map fst d.

(** [not d] *)
Definition is_empty (d : t) : bool :=
  match d with [] => true | _ => false end.

(** [{**d, **d'}] *)
Definition merge (d d' : t) : t :=
  fold_left (fun acc kv => setitem (fst kv) (snd kv) acc) d' d.
End Dict.
Arguments t : clear implicits.
End PyDict.

(** [min(xs, key=f)]: the first element whose key is smallest;
    [ValueError] on an empty sequence is [None] *)
Fixpoint min_from {A : Type} (f : A -> Z) (best : A) (xs : list A) : A :=
  match xs with
  | [] => best
  | x :: xs' => min_from f (if f x <? f best then x else best) xs'
  end.

Definition py_min {A : Type} (xs : list A) (f : A -> Z) : option A :=
  match xs with
  | [] => None
  | x :: xs' => Some (min_from f x xs')
  end.

(** ** LogLevel, LogEntry, Logger *)

Inductive LogLevel : Type := DEBUG | INFO | WARNING | ERROR | CRITICAL.

Definition LogLevel_value (l : LogLevel) : string :=
  match l with
  | DEBUG => "DEBUG"
  | INFO => "INFO"
  | WARNING => "WARNING"
  | ERROR => "ERROR"
  | CRITICAL => "CRITICAL"
  end.

Record LogEntry : Type := mkLogEntry {
  timestamp : Z;
  level : LogLevel;
  service : string;
  message : string;
  context : list (string * string)
}.

(** The handlers of a logger are not modelled: what [_log] hands to them is
    appended to [emitted] in the world, and [_log] swallows what they raise. *)
Record Logger : Type := mkLogger {
  service_name : string;
  min_level : LogLevel;
  _context : list (string * string)
}.

(** ** EvictionPolicy and CacheEntry *)

Inductive EvictionPolicy : Type := LRU | LFU | FIFO | TTL.

Definition EvictionPolicy_value (p : EvictionPolicy) : string :=
  match p with
  | LRU => "lru"
  | LFU => "lfu"
  | FIFO => "fifo"
  | TTL => "ttl"
  end.

Record CacheEntry : Type := mkCacheEntry {
  key : string;
  value : pyobj;
  created : Z;
  last_accessed : Z;
  access_count : Z;
  expires : option Z
}.

Definition set_value (v : pyobj) (e : CacheEntry) : CacheEntry :=
  mkCacheEntry (key e) v (created e) (last_accessed e) (access_count e) (expires e).

Definition set_expires (x : option Z) (e : CacheEntry) : CacheEntry :=
  mkCacheEntry (key e) (value e) (created e) (last_accessed e) (access_count e) x.

(** the effect of [access] once the clock has been read *)
Definition accessed_at (t : Z) (e : CacheEntry) : CacheEntry :=
  mkCacheEntry (key e) (value e) (created e) t (access_count e + 1) (expires e).

(** ** Cache *)

Record Stats : Type := mkStats {
  hits : Z;
  misses : Z;
  sets : Z;
  evictions : Z;
  expirations : Z
}.

Record Cache : Type := mkCache {
  name : string;
  max_size : Z;
  policy : EvictionPolicy;
  default_ttl : option Z;
  _entries : PyDict.t CacheEntry;
  _stats : Stats;
  logger : option Logger
}.

Definition with_entries (f : PyDict.t CacheEntry -> PyDict.t CacheEntry)
    (c : Cache) : Cache :=
  mkCache (name c) (max_size c) (policy c) (default_ttl c)
          (f (_entries c)) (_stats c) (logger c).

Definition with_stats (f : Stats -> Stats) (c : Cache) : Cache :=
  mkCache (name c) (max_size c) (policy c) (default_ttl c)
          (_entries c) (f (_stats c)) (logger c).

Definition with_logger (l : option Logger) (c : Cache) : Cache :=
  mkCache (name c) (max_size c) (policy c) (default_ttl c)
          (_entries c) (_stats c) l.

(** [self._stats["hits"] += 1] and its four siblings *)
Definition incr_hits (s : Stats) : Stats :=
  mkStats (hits s + 1) (misses s) (sets s) (evictions s) (expirations s).
Definition incr_misses (s : Stats) : Stats :=
  mkStats (hits s) (misses s + 1) (sets s) (evictions s) (expirations s).
Definition incr_sets (s : Stats) : Stats :=
  mkStats (hits s) (misses s) (sets s + 1) (evictions s) (expirations s).
Definition incr_evictions (s : Stats) : Stats :=
  mkStats (hits s) (misses s) (sets s) (evictions s + 1) (expirations s).
Definition incr_expirations (s : Stats) : Stats :=
  mkStats (hits s) (misses s) (sets s) (evictions s) (expirations s + 1).

(** ** The world a method runs in *)

Record World : Type := mkWorld {
  self : Cache;
  ticks : nat;
  emitted : list LogEntry
}.

Definition M (A : Type) : Type := World -> result A * World.

Definition ret {A : Type} (a : A) : M A := fun w => (Ok a, w).

Definition raise {A : Type} (e : exn) : M A := fun w => (Raise e, w).

Definition bind {A B : Type} (m : M A) (f : A -> M B) : M B :=
  fun w =>
    match m w with
    | (Ok a, w') => f a w'
    | (Raise e, w') => (Raise e, w')
    end.

Notation "x <- m ;; k" := (bind m (fun x => k))
  (at level 61, m at next level, right associativity).
Notation "m ;;; k" := (bind m (fun _ => k))
  (at level 61, right associativity).

Definition read_self : M Cache := fun w => (Ok (self w), w).

Definition modify_self (f : Cache -> Cache) : M unit :=
  fun w => (Ok tt, mkWorld (f (self w)) (ticks w) (emitted w)).

Definition emit (e : LogEntry) : M unit :=
  fun w => (Ok tt, mkWorld (self w) (ticks w) (emitted w ++ [e])).

(** truthiness of an [Optional[int]] *)
Definition truthy (o : option Z) : bool :=
  match o with
  | Some n => negb (n =? 0)
  | None => false
  end.

(** [a or b] on [Optional[int]] *)
Definition py_or (a b : option Z) : option Z :=
  if truthy a then a else b.

Definition microseconds (seconds : Z) : Z := seconds * 1000000.

(** [datetime.max - datetime.min] in microseconds *)
Definition datetime_span : Z := 315537897599999999.

Definition datetime_min : Z := 0.

Definition datetime_max : Z := datetime_min + datetime_span.

(** [timedelta(seconds=n)] in microseconds: a timedelta has at most
    999999999 days in magnitude *)
Definition timedelta (seconds : Z) : result Z :=
  let days := seconds / 86400 in
  if (-999999999 <=? days) && (days <=? 999999999)
  then Ok (microseconds seconds)
  else Raise OverflowError.

(** [t + d] for a datetime [t] and a timedelta [d], where [datetime.min] is
    [lo] *)
Definition add_from (lo t d : Z) : result Z :=
  if (lo <=? t + d) && (t + d <=? lo + datetime_span)
  then Ok (t + d)
  else Raise OverflowError.

Definition datetime_add (t d : Z) : result Z := add_from datetime_min t d.

(** a result of a computation without effect, as a step of a method *)
Definition lift {A : Type} (r : result A) : M A := fun w => (r, w).

(** [float(n)] for an int that a float holds exactly, as it does every
    [n] with [0 <= n < 2^53] *)
Definition float_of_int (n : Z) : float := PrimFloat.of_uint63 (Uint63.of_Z n).

(** [a / b] on two such ints: the float nearest to the quotient *)
Definition truediv (a b : Z) : M float :=
  if b =? 0 then raise ZeroDivisionError
  else ret (PrimFloat.div (float_of_int a) (float_of_int b)).

(** the integer nearest to [q], ties to the even one *)
Definition round_half_even (q : Q) : Z :=
  let d := Z.pos (Qden q) in
  let lo := Qnum q / d in
  let twice_rest := 2 * (Qnum q mod d) in
  if twice_rest <? d then lo
  else if d <? twice_rest then lo + 1
  else if Z.even lo then lo else lo + 1.

(** the text of a number of sign [negative] whose absolute value [q] is
    rounded to one decimal *)
Definition format_tenths (negative : bool) (q : Q) : string :=
  let tenths := round_half_even (q * 10)%Q in
  (if negative then "-" else "") ++
  str_of_int (tenths / 10) ++ "." ++ str_of_int (tenths mod 10).

(** [f"{x:.1f}"]: the exact value of the float, rounded to one decimal *)
Definition format_1f (x : float) : string :=
  match Prim2SF x with
  | S754_zero negative => format_tenths negative 0
  | S754_finite negative m e =>
      format_tenths negative
        (if 0 <=? e then inject_Z (Z.pos m * 2 ^ e)
         else Z.pos m # Z.to_pos (2 ^ (- e)))
  | S754_infinity negative => if negative then "-inf" else "inf"
  | S754_nan => "nan"
  end.

(** one call of a client on the cache object *)
Inductive call : Type :=
  | CallGet (k : string) (default : pyobj)
  | CallSet (k : string) (v : pyobj) (ttl : option Z)
  | CallDelete (k : string)
  | CallClear
  | CallGetStats
  | CallContains (k : string)
  | CallGetItem (k : string)
  | CallSetItem (k : string) (v : pyobj)
  | CallDelItem (k : string)
  | CallSetLogger (lg : Logger).

Section Methods.
(** the successive readings of [datetime.now()] *)
Variable clk : nat -> Z.

Definition now : M Z :=
  fun w => (Ok (clk (ticks w)), mkWorld (self w) (S (ticks w)) (emitted w)).

(** *** Logger *)

Definition _log (lg : Logger) (lvl : LogLevel) (msg : string)
    (kwargs : list (string * string)) : M unit :=
  if String.ltb (LogLevel_value lvl) (LogLevel_value (min_level lg))
  then ret tt
  else
    ts <- now ;;
    emit (mkLogEntry ts lvl (service_name lg) msg
                     (PyDict.merge (_context lg) kwargs)).

Definition debug (lg : Logger) (msg : string) (kwargs : list (string * string))
    : M unit :=
  _log lg DEBUG msg kwargs.

Definition info (lg : Logger) (msg : string) (kwargs : list (string * string))
    : M unit :=
  _log lg INFO msg kwargs.

(** [if self.logger: self.logger.debug(msg, **kwargs)] *)
Definition log_debug (msg : string) (kwargs : list (string * string)) : M unit :=
  c <- read_self ;;
  match logger c with
  | Some lg => debug lg msg kwargs
  | None => ret tt
  end.

Definition log_info (msg : string) (kwargs : list (string * string)) : M unit :=
  c <- read_self ;;
  match logger c with
  | Some lg => info lg msg kwargs
  | None => ret tt
  end.

(** *** CacheEntry *)

(** the [is_expired] property of the entry object [e] *)
Definition is_expired (e : CacheEntry) : M bool :=
  match expires e with
  | Some x => t <- now ;; ret (x <? t)
  | None => ret false
  end.

(** [self._entries[k].access()] *)
Definition access (k : string) : M unit :=
  t <- now ;;
  modify_self (with_entries (PyDict.update k (accessed_at t))).

(** *** Cache *)

Definition __init__ (name : string) (max_size : Z) (policy : EvictionPolicy)
    (default_ttl : option Z) : result Cache :=
  Ok (mkCache name max_size policy default_ttl PyDict.empty
              (mkStats 0 0 0 0 0) None).

Definition set_logger (lg : Logger) : M unit :=
  modify_self (with_logger (Some lg)).

(** [self._entries[k]] *)
Definition entry_of (k : string) : M CacheEntry :=
  c <- read_self ;;
  match PyDict.lookup k (_entries c) with
  | Some e => ret e
  | None => raise (KeyError k)
  end.

Definition get (k : string) (default : pyobj) : M pyobj :=
  c <- read_self ;;
  if PyDict.contains k (_entries c) then
    entry <- entry_of k ;;
    expired <- is_expired entry ;;
    if expired then
      modify_self (with_entries (PyDict.delitem k)) ;;;
      modify_self (with_stats incr_expirations) ;;;
      log_debug ("Cache expired: " ++ k) [("cache", name c)] ;;;
      ret default
    else
      access k ;;;
      modify_self (with_stats incr_hits) ;;;
      log_debug ("Cache hit: " ++ k) [("cache", name c)] ;;;
      ret (value entry)
  else
    modify_self (with_stats incr_misses) ;;;
    log_debug ("Cache miss: " ++ k) [("cache", name c)] ;;;
    ret default.

(** the key function [lambda k: self._entries[k].<field>] of [_evict];
    [k] ranges over the keys of the dict, so the lookup succeeds *)
Definition field_of (d : PyDict.t CacheEntry) (field : CacheEntry -> Z)
    (k : string) : Z :=
  match PyDict.lookup k d with
  | Some e => field e
  | None => 0
  end.

Definition _evict : M unit :=
  c <- read_self ;;
  if PyDict.is_empty (_entries c) then ret tt
  else
    let candidates := PyDict.keys (_entries c) in
    let chosen :=
      match policy c with
      | LRU => py_min candidates (field_of (_entries c) last_accessed)
      | LFU => py_min candidates (field_of (_entries c) access_count)
      | FIFO => py_min candidates (field_of (_entries c) created)
      | TTL => py_min candidates (field_of (_entries c) last_accessed)
      end in
    match chosen with
    | None => raise (ValueError "min() arg is an empty sequence")
    | Some key_to_evict =>
        modify_self (with_entries (PyDict.delitem key_to_evict)) ;;;
        modify_self (with_stats incr_evictions) ;;;
        log_debug ("Cache evicted: " ++ key_to_evict)
                  [("cache", name c); ("policy", EvictionPolicy_value (policy c))]
    end.

Definition set (k : string) (v : pyobj) (ttl : option Z) : M unit :=
  c <- read_self ;;
  (if (max_size c <=? PyDict.len (_entries c))
      && negb (PyDict.contains k (_entries c))
   then _evict else ret tt) ;;;
  let ttl_seconds := py_or ttl (default_ttl c) in
  expires <- (if truthy ttl_seconds
              then t <- now ;;
                   d <- lift (timedelta (match ttl_seconds with
                                         | Some n => n
                                         | None => 0
                                         end)) ;;
                   x <- lift (datetime_add t d) ;;
                   ret (Some x)
              else ret None) ;;
  c' <- read_self ;;
  (if PyDict.contains k (_entries c') then
     modify_self (with_entries (PyDict.update k (set_value v))) ;;;
     modify_self (with_entries (PyDict.update k (set_expires expires))) ;;;
     access k
   else
     t_created <- now ;;
     t_accessed <- now ;;
     modify_self (with_entries
       (PyDict.setitem k (mkCacheEntry k v t_created t_accessed 0 expires)))) ;;;
  modify_self (with_stats incr_sets) ;;;
  log_debug ("Cache set: " ++ k ++
             (if truthy ttl_seconds
              then " TTL=" ++ str_of_int (match ttl_seconds with
                                          | Some n => n
                                          | None => 0
                                          end) ++ "s"
              else ""))
            [("cache", name c)].

Definition delete (k : string) : M bool :=
  c <- read_self ;;
  if PyDict.contains k (_entries c) then
    modify_self (with_entries (PyDict.delitem k)) ;;;
    log_debug ("Cache delete: " ++ k) [("cache", name c)] ;;;
    ret true
  else ret false.

Definition clear : M unit :=
  c <- read_self ;;
  let count := PyDict.len (_entries c) in
  modify_self (with_entries (fun _ => PyDict.empty)) ;;;
  log_info ("Cache cleared: " ++ str_of_int count ++ " entries")
           [("cache", name c)].

(** the local [hit_rate] of [get_stats] *)
Definition hit_rate_of (s : Stats) : M float :=
  let total_requests := hits s + misses s in
  if 0 <? total_requests then
    q <- truediv (hits s) total_requests ;;
    ret (PrimFloat.mul q (float_of_int 100))
  else ret (float_of_int 0).

Definition get_stats : M (PyDict.t pyobj) :=
  c <- read_self ;;
  hit_rate <- hit_rate_of (_stats c) ;;
  ret [ ("hits", PyInt (hits (_stats c)));
        ("misses", PyInt (misses (_stats c)));
        ("sets", PyInt (sets (_stats c)));
        ("evictions", PyInt (evictions (_stats c)));
        ("expirations", PyInt (expirations (_stats c)));
        ("size", PyInt (PyDict.len (_entries c)));
        ("max_size", PyInt (max_size c));
        ("policy", PyStr (EvictionPolicy_value (policy c)));
        ("hit_rate", PyStr (format_1f hit_rate ++ "%"));
        ("keys", PyList (map PyStr (PyDict.keys (_entries c)))) ].

Definition __contains__ (k : string) : M bool :=
  v <- get k PyNone ;;
  ret (negb (is_None v)).

Definition __getitem__ (k : string) : M pyobj :=
  v <- get k PyNone ;;
  if is_None v then raise (KeyError k) else ret v.

Definition __setitem__ (k : string) (v : pyobj) : M unit :=
  set k v None.

Definition __delitem__ (k : string) : M unit :=
  deleted <- delete k ;;
  if negb deleted then raise (KeyError k) else ret tt.

(** *** Sequences of calls made by a client *)

Definition forget {A : Type} (m : M A) : M unit := m ;;; ret tt.

Definition perform (c : call) : M unit :=
  match c with
  | CallGet k default => forget (get k default)
  | CallSet k v ttl => set k v ttl
  | CallDelete k => forget (delete k)
  | CallClear => clear
  | CallGetStats => forget get_stats
  | CallContains k => forget (__contains__ k)
  | CallGetItem k => forget (__getitem__ k)
  | CallSetItem k v => __setitem__ k v
  | CallDelItem k => __delitem__ k
  | CallSetLogger lg => set_logger lg
  end.

(** the client goes on after a call that raised *)
Fixpoint run (cs : list call) (w : World) : World :=
  match cs with
  | [] => w
  | c :: cs' => run cs' (snd (perform c w))
  end.

(** whether every call of the sequence returns, none raising *)
Fixpoint all_return (cs : list call) (w : World) : bool :=
  match cs with
  | [] => true
  | c :: cs' =>
      match fst (perform c w) with
      | Ok _ => all_return cs' (snd (perform c w))
      | Raise _ => false
      end
  end.

(** 1 if the call enters [Cache.set] and returns from it, else 0 *)
Definition set_returned (c : call) (w : World) : Z :=
  match c with
  | CallSet _ _ _ | CallSetItem _ _ =>
      match fst (perform c w) with
      | Ok _ => 1
      | Raise _ => 0
      end
  | _ => 0
  end.

(** how many calls of the sequence enter [Cache.set] and return from it *)
Fixpoint sets_returned (cs : list call) (w : World) : Z :=
  match cs with
  | [] => 0
  | c :: cs' => set_returned c w + sets_returned cs' (snd (perform c w))
  end.
End Methods.

(** the world right after [cache = Cache(...)], the clock having been read
    [t0] times before *)
Definition fresh (c : Cache) (t0 : nat) : World := mkWorld c t0 [].

(** [len(self._entries)], the [size] that [get_stats] reports *)
Definition size (w : World) : Z := PyDict.len (_entries (self w)).

Definition stats (w : World) : Stats := _stats (self w).

(** how many times a call enters [Cache.get] *)
Definition get_calls_of (c : call) : Z :=
  match c with
  | CallGet _ _ | CallContains _ | CallGetItem _ => 1
  | _ => 0
  end.

Fixpoint get_calls (cs : list call) : Z :=
  match cs with
  | [] => 0
  | c :: cs' => get_calls_of c + get_calls cs'
  end.

(** the sequence of calls [cache.set(k, v, ttl)] for the given arguments *)
Definition set_calls (args : list (string * pyobj * option Z)) : list call :=
  map (fun a => CallSet (fst (fst a)) (snd (fst a)) (snd a)) args.

(** the field of an entry that [_evict] compares under a policy *)
Definition policy_field (p : EvictionPolicy) : CacheEntry -> Z :=
  match p with
  | LRU => last_accessed
  | LFU => access_count
  | FIFO => created
  | TTL => last_accessed
  end.

(** what [set] does to the dict once the clock has been read: the entry
    under [k] is overwritten in place, or a new one is added at the end *)
Definition store (k : string) (v : pyobj) (x : option Z) (t1 t2 : Z)
    (d : PyDict.t CacheEntry) : PyDict.t CacheEntry :=
  if PyDict.contains k d then
    PyDict.update k (accessed_at t1)
      (PyDict.update k (set_expires x) (PyDict.update k (set_value v) d))
  else PyDict.setitem k (mkCacheEntry k v t1 t2 0 x) d.

(** the expiry that [set] computes when the clock reads [t] *)
Definition expiry (ttl dflt : option Z) (t : Z) : option Z :=
  match py_or ttl dflt with
  | Some n => if n =? 0 then None else Some (t + microseconds n)
  | None => None
  end.

(** whether the expiry that [set] computes when the clock reads [t] is in
    range, so that [set] returns; it raises [OverflowError] otherwise *)
Definition set_returns (ttl dflt : option Z) (t : Z) : bool :=
  match py_or ttl dflt with
  | Some n =>
      if n =? 0 then true
      else match timedelta n with
           | Ok d => match datetime_add t d with Ok _ => true | Raise _ => false end
           | Raise _ => false
           end
  | None => true
  end.

(** the number of calls of [get] that the counters account for *)
Definition gets_counted (s : Stats) : Z := hits s + misses s + expirations s.

(** a clock that advances by one second between two readings *)
Definition tclk (n : nat) : Z := 1000000 * Z.of_nat n.

(** the cache that [Cache(name, max_size, policy, default_ttl)] builds *)
Definition new_cache (name : string) (max_size : Z) (policy : EvictionPolicy)
    (default_ttl : option Z) : Cache :=
  mkCache name max_size policy default_ttl PyDict.empty (mkStats 0 0 0 0 0) None.

(** how many times a call enters [Cache.set] *)
Definition sets_made_by (c : call) : Z :=
  match c with
  | CallSet _ _ _ | CallSetItem _ _ => 1
  | _ => 0
  end.

Fixpoint sets_made (cs : list call) : Z :=
  match cs with
  | [] => 0
  | c :: cs' => sets_made_by c + sets_made cs'
  end.

(** the four attributes that [__init__] sets from its arguments *)
Definition same_config (c c' : Cache) : Prop :=
  name c' = name c /\ max_size c' = max_size c /\
  policy c' = policy c /\ default_ttl c' = default_ttl c.

(** no counter of [s'] is below its value in [s] *)
Definition counters_le (s s' : Stats) : Prop :=
  hits s <= hits s' /\ misses s <= misses s' /\ sets s <= sets s' /\
  evictions s <= evictions s' /\ expirations s <= expirations s'.

(** the same cache object at a later reading of the clock *)
Definition later (w : World) (n : nat) : World :=
  mkWorld (self w) (ticks w + n) (emitted w).

(** a clock that never goes back *)
Definition monotone (clk : nat -> Z) : Prop :=
  forall i j, (i <= j)%nat -> clk i <= clk j.

(** every entry is stored under its own key, and no key occurs twice *)
Definition well_keyed (d : PyDict.t CacheEntry) : Prop :=
  NoDup (PyDict.keys d) /\
  forall k e, PyDict.lookup k d = Some e -> key e = k.

(** ** InfrastructureFactory: the two cache builders *)

(** [create_default_cache(name, max_size)]; [max_size] defaults to 100 *)
Definition create_default_cache (name : string) (max_size : Z) : result Cache :=
  __init__ name max_size LRU None.

(** [create_ttl_cache(name, default_ttl)]; [default_ttl] defaults to 300 *)
Definition create_ttl_cache (name : string) (default_ttl : Z) : result Cache :=
  __init__ name 1000 TTL (Some default_ttl).


(** ** The three caches that [Cache] replaces

    Each method of these classes reads the clock at most once; [now] is what
    [datetime.now()] returns in the call. *)

(** [d[k]] *)
Definition getitem {V : Type} (k : string) (d : PyDict.t V) : result V :=
  match PyDict.lookup k d with
  | Some v => Ok v
  | None => Raise (KeyError k)
  end.

(** the key function [lambda k: d[k]] over the keys of [d] *)
Definition time_of (d : PyDict.t Z) (k : string) : Z :=
  match PyDict.lookup k d with
  | Some t => t
  | None => 0
  end.

Module WebAPICache.

Record t : Type := mk {
  cache : PyDict.t pyobj;
  max_size : Z;
  access_times : PyDict.t Z
}.

(** [max_size] defaults to 100 *)
Definition __init__ (max_size : Z) : t := mk PyDict.empty max_size PyDict.empty.

Definition get (now : Z) (key : string) (s : t) : result pyobj * t :=
  if PyDict.contains key (cache s) then
    let s' := mk (cache s) (max_size s)
                 (PyDict.setitem key now (access_times s)) in
    (getitem key (cache s'), s')
  else (Ok PyNone, s).

(** [ttl_seconds] defaults to 300 and is not used *)
Definition set (now : Z) (key : string) (value : pyobj) (ttl_seconds : Z)
    (s : t) : result unit * t :=
  let insert (s0 : t) :=
    (Ok tt, mk (PyDict.setitem key value (cache s0)) (max_size s0)
               (PyDict.setitem key now (access_times s0))) in
  if max_size s <=? PyDict.len (cache s) then
    match py_min (PyDict.keys (access_times s)) (time_of (access_times s)) with
    | None => (Raise (ValueError "min() arg is an empty sequence"), s)
    | Some oldest_key =>
        if PyDict.contains oldest_key (cache s) then
          insert (mk (PyDict.delitem oldest_key (cache s)) (max_size s)
                     (PyDict.delitem oldest_key (access_times s)))
        else (Raise (KeyError oldest_key), s)
    end
  else insert s.

Definition clear (s : t) : t := mk PyDict.empty (max_size s) PyDict.empty.

Inductive call : Type :=
  | CGet (now : Z) (key : string)
  | CSet (now : Z) (key : string) (value : pyobj) (ttl_seconds : Z)
  | CClear.

(** whether the call raised, and the object after it *)
Definition perform (c : call) (s : t) : bool * t :=
  match c with
  | CGet now key =>
      (match fst (get now key s) with Ok _ => false | Raise _ => true end,
       snd (get now key s))
  | CSet now key value ttl =>
      (match fst (set now key value ttl s) with Ok _ => false | Raise _ => true end,
       snd (set now key value ttl s))
  | CClear => (false, clear s)
  end.

Fixpoint run (cs : list call) (s : t) : t :=
  match cs with
  | [] => s
  | c :: cs' => run cs' (snd (perform c s))
  end.

(** whether some call of the sequence raised *)
Fixpoint raised (cs : list call) (s : t) : bool :=
  match cs with
  | [] => false
  | c :: cs' => fst (perform c s) || raised cs' (snd (perform c s))
  end.

(** the object is within the capacity [ms] and its two dicts hold the same
    keys in the same order *)
Definition within (ms : Z) (s : t) : Prop :=
  max_size s = ms /\
  PyDict.keys (cache s) = PyDict.keys (access_times s) /\
  PyDict.len (cache s) <= ms.

End WebAPICache.

Module JobProcessorCache.
Section WithMin.
(** [datetime.min] *)
Variable datetime_min : Z.

Record t : Type := mk {
  cache : PyDict.t pyobj;
  expiries : PyDict.t Z
}.

Definition __init__ : t := mk PyDict.empty PyDict.empty.

Definition fetch (now : Z) (key : string) (s : t) : result pyobj * t :=
  if PyDict.contains key (cache s) then
    if now <? match PyDict.lookup key (expiries s) with
              | Some x => x
              | None => datetime_min
              end
    then (getitem key (cache s), s)
    else
      let s1 := mk (PyDict.delitem key (cache s)) (expiries s) in
      if PyDict.contains key (expiries s1)
      then (Ok PyNone, mk (cache s1) (PyDict.delitem key (expiries s1)))
      else (Raise (KeyError key), s1)
  else (Ok PyNone, s).

(** [timedelta(minutes=n)] *)
Definition timedelta_minutes (minutes : Z) : result Z := timedelta (60 * minutes).

(** [ttl_minutes] defaults to 10; the value is written before the expiry is
    computed *)
Definition store (now : Z) (key : string) (value : pyobj) (ttl_minutes : Z)
    (s : t) : result unit * t :=
  let s1 := mk (PyDict.setitem key value (cache s)) (expiries s) in
  match timedelta_minutes ttl_minutes with
  | Raise e => (Raise e, s1)
  | Ok d =>
      match add_from datetime_min now d with
      | Raise e => (Raise e, s1)
      | Ok x => (Ok tt, mk (cache s1) (PyDict.setitem key x (expiries s1)))
      end
  end.

Definition remove (key : string) (s : t) : result unit * t :=
  if PyDict.contains key (cache s) then
    let s1 := mk (PyDict.delitem key (cache s)) (expiries s) in
    if PyDict.contains key (expiries s1)
    then (Ok tt, mk (cache s1) (PyDict.delitem key (expiries s1)))
    else (Raise (KeyError key), s1)
  else (Ok tt, s).

Inductive call : Type :=
  | CFetch (now : Z) (key : string)
  | CStore (now : Z) (key : string) (value : pyobj) (ttl_minutes : Z)
  | CRemove (key : string).

(** whether the call raised, and the object after it *)
Definition perform (c : call) (s : t) : bool * t :=
  match c with
  | CFetch now key =>
      (match fst (fetch now key s) with Ok _ => false | Raise _ => true end,
       snd (fetch now key s))
  | CStore now key value ttl =>
      (match fst (store now key value ttl s) with Ok _ => false | Raise _ => true end,
       snd (store now key value ttl s))
  | CRemove key =>
      (match fst (remove key s) with Ok _ => false | Raise _ => true end,
       snd (remove key s))
  end.

Fixpoint run (cs : list call) (s : t) : t :=
  match cs with
  | [] => s
  | c :: cs' => run cs' (snd (perform c s))
  end.

(** whether some call of the sequence raised *)
Fixpoint raised (cs : list call) (s : t) : bool :=
  match cs with
  | [] => false
  | c :: cs' => fst (perform c s) || raised cs' (snd (perform c s))
  end.


End WithMin.
End JobProcessorCache.

Module PipelineCache.

Record t : Type := mk {
  data : PyDict.t pyobj;
  ttls : PyDict.t Z
}.

Definition __init__ : t := mk PyDict.empty PyDict.empty.

Definition get_key (now : Z) (key : string) (s : t) : result pyobj * t :=
  if PyDict.contains key (data s) then
    if PyDict.contains key (ttls s) then
      match getitem key (ttls s) with
      | Raise e => (Raise e, s)
      | Ok x =>
          if now <? x then (getitem key (data s), s)
          else
            (Ok PyNone,
             mk (PyDict.delitem key (data s)) (PyDict.delitem key (ttls s)))
      end
    else (getitem key (data s), s)
  else (Ok PyNone, s).

(** the value is written before the expiry is computed *)
Definition set_key (now : Z) (key : string) (value : pyobj) (ttl : option Z)
    (s : t) : result unit * t :=
  let s1 := mk (PyDict.setitem key value (data s)) (ttls s) in
  if truthy ttl then
    match timedelta (match ttl with Some n => n | None => 0 end) with
    | Raise e => (Raise e, s1)
    | Ok d =>
        match datetime_add now d with
        | Raise e => (Raise e, s1)
        | Ok x => (Ok tt, mk (data s1) (PyDict.setitem key x (ttls s1)))
        end
    end
  else (Ok tt, s1).

Definition delete_key (key : string) (s : t) : t :=
  mk (if PyDict.contains key (data s)
      then PyDict.delitem key (data s) else data s)
     (if PyDict.contains key (ttls s)
      then PyDict.delitem key (ttls s) else ttls s).

End PipelineCache.

(** ** BufferLogHandler

    The handler never looks into an entry, so the type of the entries is a
    parameter.  A handler that it forwards to is the list of the entries that
    handler has been given, in order; such a handler does not raise. *)

Module BufferLogHandler.
Section Entries.
Context {E : Type}.

Record t : Type := mk {
  buffer : list E;
  flush_size : Z;
  handlers : list (list E)
}.

(** [flush_size] defaults to 10 *)
Definition __init__ (flush_size : Z) : t := mk [] flush_size [].

Definition add_handler (handler : list E) (s : t) : t :=
  mk (buffer s) (flush_size s) (handlers s ++ [handler]).

Definition flush (s : t) : t :=
  mk []
     (flush_size s)
     (fold_left (fun hs entry => map (fun h => (h ++ [entry])%list) hs)
                (buffer s) (handlers s)).

Definition emit (entry : E) (s : t) : t :=
  let s1 := mk (buffer s ++ [entry])%list (flush_size s) (handlers s) in
  if flush_size s1 <=? Z.of_nat (List.length (buffer s1)) then flush s1 else s1.

Inductive call : Type :=
  | CEmit (entry : E)
  | CFlush.

Definition perform (c : call) (s : t) : t :=
  match c with
  | CEmit entry => emit entry s
  | CFlush => flush s
  end.

Fixpoint run (cs : list call) (s : t) : t :=
  match cs with
  | [] => s
  | c :: cs' => run cs' (perform c s)
  end.

(** the entries that the calls hand to [emit], in order *)
Fixpoint emitted_by (cs : list call) : list E :=
  match cs with
  | [] => []
  | CEmit entry :: cs' => entry :: emitted_by cs'
  | CFlush :: cs' => emitted_by cs'
  end.

(** [n] calls of [add_handler] with handlers that were given nothing yet *)
Fixpoint with_handlers (n : nat) (s : t) : t :=
  match n with
  | O => s
  | S n' => with_handlers n' (add_handler [] s)
  end.

(** every handler has been given, together with what waits in the buffer,
    exactly the entries [es]; the buffer is shorter than the flush size *)
Definition delivered (es : list E) (s : t) : Prop :=
  Forall (fun h => (h ++ buffer s)%list = es) (handlers s) /\
  Z.of_nat (List.length (buffer s)) < Z.max (flush_size s) 1.
End Entries.
Arguments t : clear implicits.
Arguments call : clear implicits.
End BufferLogHandler.

(** ** AuthResult and ApiKeyAuthProvider

    The credentials are a dict whose values are strings. *)

Module Auth.
Record AuthResult : Type := mkAuthResult {
  success : bool;
  identity : option string;
  roles : list string;
  permissions : list string;
  error : option string;
  expires : option Z
}.

(** [AuthResult(success=False, error=msg)] *)
Definition failure (msg : string) : AuthResult :=
  mkAuthResult false None [] [] (Some msg) None.
End Auth.

Module ApiKeyAuthProvider.

(** one value of [self.api_keys] *)
Record KeyData : Type := mkKeyData {
  identity : string;
  permissions : list string;
  roles : list string;
  expires : option Z
}.

(** [self.api_keys] *)
Definition t : Type := PyDict.t KeyData.

Definition __init__ : t := PyDict.empty.

(** [x or []] *)
Definition or_empty (x : option (list string)) : list string :=
  match x with
  | Some l => l
  | None => []
  end.

Definition register_key (key identity : string)
    (permissions roles : option (list string)) (expires : option Z)
    (s : t) : t :=
  PyDict.setitem key
    (mkKeyData identity (or_empty permissions) (or_empty roles) expires) s.

(** [credentials.get(a) or credentials.get(b)] *)
Definition get_or (a b : string) (credentials : PyDict.t string)
    : option string :=
  match PyDict.lookup a credentials with
  | Some x => if String.eqb x "" then PyDict.lookup b credentials else Some x
  | None => PyDict.lookup b credentials
  end.

Definition authenticate (now : Z) (credentials : PyDict.t string) (s : t)
    : result Auth.AuthResult :=
  match get_or "api_key" "token" credentials with
  | None => Ok (Auth.failure "No API key provided")
  | Some api_key =>
      if String.eqb api_key "" then Ok (Auth.failure "No API key provided")
      else if PyDict.contains api_key s then
        match getitem api_key s with
        | Raise e => Raise e
        | Ok key_data =>
            if match expires key_data with
               | Some x => x <? now
               | None => false
               end
            then Ok (Auth.failure "API key expired")
            else Ok (Auth.mkAuthResult true (Some (identity key_data))
                       (roles key_data) (permissions key_data) None None)
        end
      else Ok (Auth.failure "Invalid API key")
  end.

Definition validate_token (now : Z) (token : string) (s : t)
    : result Auth.AuthResult :=
  authenticate now [("api_key", token)] s.

End ApiKeyAuthProvider.

(** ** Facts about dicts *)

Module PyDictFacts.
Import PyDict.
Section Facts.
Context {V : Type}.
Implicit Types (d : PyDict.t V) (k : string) (v : V).

Lemma contains_lookup k d :
  contains k d = match lookup k d with Some _ => true | None => false end.
Proof.
  induction d as [|[k' v'] d IH]; simpl; [reflexivity|].
  destruct (String.eqb k k'); [reflexivity | exact IH].
Qed.

Lemma lookup_contains k d v : lookup k d = Some v -> contains k d = true.
Proof. intros H. rewrite contains_lookup, H. reflexivity. Qed.

Lemma contains_false_lookup k d : contains k d = false -> lookup k d = None.
Proof.
  rewrite contains_lookup. destruct (lookup k d); [discriminate | reflexivity].
Qed.

Lemma contains_true_lookup k d :
  contains k d = true -> exists v, lookup k d = Some v.
Proof.
  rewrite contains_lookup. destruct (lookup k d) as [v|]; [eauto | discriminate].
Qed.

Lemma contains_keys k d : contains k d = true <-> In k (keys d).
Proof.
  induction d as [|[k' v'] d IH]; simpl.
  - split; [discriminate | tauto].
  - destruct (String.eqb_spec k k') as [->|Hne].
    + split; auto.
    + rewrite IH. split; [auto | intros [H|H]; [congruence | exact H]].
Qed.

Lemma len_nonneg d : 0 <= len d.
Proof. unfold len. lia. Qed.

Lemma len_update k f d : len (update k f d) = len d.
Proof.
  unfold len. f_equal.
  induction d as [|[k' v'] d IH]; simpl; [reflexivity|].
  destruct (String.eqb k k'); simpl; congruence.
Qed.

Lemma keys_update k f d : keys (update k f d) = keys d.
Proof.
  induction d as [|[k' v'] d IH]; simpl; [reflexivity|].
  destruct (String.eqb k k'); simpl; congruence.
Qed.

Lemma lookup_update k k' f d :
  lookup k' (update k f d) =
  if String.eqb k' k then option_map f (lookup k d) else lookup k' d.
Proof.
  induction d as [|[k0 v0] d IH]; simpl.
  - destruct (String.eqb k' k); reflexivity.
  - destruct (String.eqb_spec k k0) as [->|Hk]; simpl.
    + destruct (String.eqb_spec k' k0) as [->|Hk']; reflexivity.
    + destruct (String.eqb_spec k' k0) as [->|Hk'].
      * destruct (String.eqb_spec k0 k); [congruence | reflexivity].
      * exact IH.
Qed.

Lemma contains_update k k' f d : contains k' (update k f d) = contains k' d.
Proof.
  rewrite !contains_lookup, lookup_update.
  destruct (String.eqb_spec k' k) as [->|]; [|reflexivity].
  destruct (lookup k d); reflexivity.
Qed.

Lemma lookup_delitem k k' d :
  lookup k' (delitem k d) = if String.eqb k' k then None else lookup k' d.
Proof.
  unfold delitem.
  induction d as [|[k0 v0] d IH]; simpl.
  - destruct (String.eqb k' k); reflexivity.
  - destruct (String.eqb_spec k k0) as [->|Hk]; simpl.
    + rewrite IH. destruct (String.eqb k' k0); reflexivity.
    + rewrite IH. destruct (String.eqb_spec k' k0) as [->|Hk'].
      * destruct (String.eqb_spec k0 k); [congruence | reflexivity].
      * reflexivity.
Qed.

Lemma contains_delitem k k' d :
  contains k' (delitem k d) = if String.eqb k' k then false else contains k' d.
Proof.
  rewrite !contains_lookup, lookup_delitem.
  destruct (String.eqb k' k); reflexivity.
Qed.

Lemma len_delitem_le k d : len (delitem k d) <= len d.
Proof.
  unfold len, delitem. apply inj_le, filter_length_le.
Qed.

Lemma len_delitem_lt k d : contains k d = true -> len (delitem k d) < len d.
Proof.
  unfold len, delitem.
  induction d as [|[k0 v0] d IH]; simpl; [discriminate|].
  destruct (String.eqb_spec k k0) as [->|Hk]; simpl; intros H.
  - pose proof (filter_length_le
      (fun kv : string * V => negb (String.eqb k0 (fst kv))) d). lia.
  - specialize (IH H). lia.
Qed.

Lemma lookup_setitem k k' v d :
  lookup k' (setitem k v d) = if String.eqb k' k then Some v else lookup k' d.
Proof.
  induction d as [|[k0 v0] d IH]; simpl.
  - destruct (String.eqb k' k); reflexivity.
  - destruct (String.eqb_spec k k0) as [->|Hk]; simpl.
    + destruct (String.eqb k' k0); reflexivity.
    + rewrite IH. destruct (String.eqb_spec k' k0) as [->|Hk'].
      * destruct (String.eqb_spec k0 k); [congruence | reflexivity].
      * reflexivity.
Qed.

Lemma contains_setitem k k' v d :
  contains k' (setitem k v d) = if String.eqb k' k then true else contains k' d.
Proof.
  rewrite !contains_lookup, lookup_setitem.
  destruct (String.eqb k' k); reflexivity.
Qed.

Lemma setitem_new k v d :
  contains k d = false -> setitem k v d = (d ++ [(k, v)])%list.
Proof.
  induction d as [|[k0 v0] d IH]; simpl; [reflexivity|].
  destruct (String.eqb k k0); [discriminate|].
  intros H. rewrite (IH H). reflexivity.
Qed.

Lemma len_setitem_new k v d :
  contains k d = false -> len (setitem k v d) = len d + 1.
Proof.
  intros H. rewrite (setitem_new _ _ _ H). unfold len.
  rewrite length_app. simpl. lia.
Qed.

Lemma is_empty_len d : is_empty d = false -> 0 < len d.
Proof. destruct d; [discriminate|]. unfold len. simpl. lia. Qed.
End Facts.
End PyDictFacts.

(** ** Facts about [min] *)

Section MinFacts.
Context {A : Type} (f : A -> Z).

Lemma min_from_In (xs : list A) (best : A) :
  min_from f best xs = best \/ In (min_from f best xs) xs.
Proof.
  revert best. induction xs as [|x xs IH]; intros best; simpl; [auto|].
  destruct (IH (if f x <? f best then x else best)) as [H|H]; [|auto].
  rewrite H. destruct (f x <? f best); auto.
Qed.

Lemma min_from_le_best (xs : list A) (best : A) :
  f (min_from f best xs) <= f best.
Proof.
  revert best. induction xs as [|x xs IH]; intros best; simpl; [lia|].
  specialize (IH (if f x <? f best then x else best)).
  destruct (Z.ltb_spec (f x) (f best)); lia.
Qed.

Lemma min_from_le (xs : list A) (best y : A) :
  In y xs -> f (min_from f best xs) <= f y.
Proof.
  revert best. induction xs as [|x xs IH]; intros best; simpl; [tauto|].
  intros [->|Hy]; [|apply IH, Hy].
  pose proof (min_from_le_best xs (if f y <? f best then y else best)).
  destruct (Z.ltb_spec (f y) (f best)); lia.
Qed.

Lemma py_min_In (xs : list A) (x : A) : py_min xs f = Some x -> In x xs.
Proof.
  destruct xs as [|x0 xs]; simpl; [discriminate|].
  intros [= <-]. destruct (min_from_In xs x0) as [->|H]; auto.
Qed.

Lemma py_min_le (xs : list A) (x y : A) :
  py_min xs f = Some x -> In y xs -> f x <= f y.
Proof.
  destruct xs as [|x0 xs]; simpl; [discriminate|].
  intros [= <-] [<-|Hy]; [apply min_from_le_best | apply min_from_le, Hy].
Qed.

Lemma py_min_nonempty (xs : list A) : xs <> [] -> exists x, py_min xs f = Some x.
Proof. destruct xs; [congruence | simpl; eauto]. Qed.
End MinFacts.

(** ** What each method does to the world *)

Section MethodFacts.
Variable clk : nat -> Z.
Import PyDict PyDictFacts.

Lemma _log_inv lg lvl msg kw w r w' :
  _log clk lg lvl msg kw w = (r, w') ->
  r = Ok tt /\ self w' = self w /\ (ticks w <= ticks w')%nat.
Proof.
  unfold _log.
  destruct (String.ltb _ _); cbn; intros [= <- <-]; cbn; auto.
Qed.

Lemma log_debug_inv msg kw w r w' :
  log_debug clk msg kw w = (r, w') ->
  r = Ok tt /\ self w' = self w /\ (ticks w <= ticks w')%nat.
Proof.
  unfold log_debug, bind, read_self, debug.
  destruct (logger (self w)); [apply _log_inv|].
  cbn. intros [= <- <-]. auto.
Qed.

Lemma log_info_inv msg kw w r w' :
  log_info clk msg kw w = (r, w') ->
  r = Ok tt /\ self w' = self w /\ (ticks w <= ticks w')%nat.
Proof.
  unfold log_info, bind, read_self, info.
  destruct (logger (self w)); [apply _log_inv|].
  cbn. intros [= <- <-]. auto.
Qed.
End MethodFacts.

Arguments log_debug : simpl never.
Arguments log_info : simpl never.

Ltac log_step :=
  match goal with
  | |- context [log_debug ?c ?m ?k ?w] =>
      let r := fresh "r" in
      let w' := fresh "w" in
      let E := fresh "E" in
      destruct (log_debug c m k w) as [r w'] eqn:E;
      apply log_debug_inv in E;
      destruct E as (-> & ? & ?)
  | |- context [log_info ?c ?m ?k ?w] =>
      let r := fresh "r" in
      let w' := fresh "w" in
      let E := fresh "E" in
      destruct (log_info c m k w) as [r w'] eqn:E;
      apply log_info_inv in E;
      destruct E as (-> & ? & ?)
  end.

Section EvictFacts.
Variable clk : nat -> Z.
Import PyDict PyDictFacts.

Lemma _evict_inv w r w' :
  _evict clk w = (r, w') ->
  r = Ok tt /\ (ticks w <= ticks w')%nat /\
  ((_entries (self w) = [] /\ self w' = self w) \/
   (exists k,
      py_min (keys (_entries (self w)))
             (field_of (_entries (self w)) (policy_field (policy (self w))))
        = Some k /\
      self w' = with_stats incr_evictions (with_entries (delitem k) (self w)))).
Proof.
  unfold _evict, bind, read_self.
  destruct (_entries (self w)) as [|kv d] eqn:Hd; cbn.
  - intros [= <- <-]. auto.
  - destruct (policy (self w)) eqn:Hp; cbn;
      unfold modify_self, bind; cbn;
      log_step; intros [= <- <-]; cbn in *;
      (split; [reflexivity|]); (split; [assumption|]); right;
      (eexists; split; [reflexivity|]);
      match goal with H : self _ = _ |- _ => rewrite H end;
      unfold with_stats, with_entries; cbn; rewrite Hd; reflexivity.
Qed.
End EvictFacts.

Section GetSetFacts.
Variable clk : nat -> Z.
Import PyDict PyDictFacts.

Lemma get_cases k dflt w :
  exists r w',
    get clk k dflt w = (Ok r, w') /\ (ticks w <= ticks w')%nat /\
    ((contains k (_entries (self w)) = false /\ r = dflt /\
      self w' = with_stats incr_misses (self w)) \/
     (exists e x,
        lookup k (_entries (self w)) = Some e /\ expires e = Some x /\
        x < clk (ticks w) /\ r = dflt /\
        self w' = with_stats incr_expirations
                    (with_entries (delitem k) (self w))) \/
     (exists e t,
        lookup k (_entries (self w)) = Some e /\
        fst (is_expired clk e w) = Ok false /\ r = value e /\
        self w' = with_stats incr_hits
                    (with_entries (update k (accessed_at t)) (self w)))).
Proof.
  unfold get, bind, read_self.
  destruct (contains k (_entries (self w))) eqn:Hc.
  - destruct (contains_true_lookup _ _ Hc) as [e He].
    unfold entry_of, bind, read_self. rewrite He. cbn.
    unfold is_expired, bind.
    destruct (expires e) as [x|] eqn:Hx; cbn.
    + destruct (Z.ltb_spec x (clk (ticks w))) as [Hlt|Hge]; cbn.
      * log_step. do 2 eexists. split; [reflexivity|]. cbn in *.
        split; [lia|]. right; left. exists e, x. rewrite H. auto.
      * log_step. do 2 eexists. split; [reflexivity|]. cbn in *.
        split; [lia|]. right; right. exists e. eexists.
        rewrite H. split; [reflexivity|]. split; [|split; reflexivity].
        unfold is_expired, bind. rewrite Hx. cbn.
        destruct (Z.ltb_spec x (clk (ticks w))); [lia | reflexivity].
    + log_step. do 2 eexists. split; [reflexivity|]. cbn in *.
      split; [lia|]. right; right. exists e. eexists.
      rewrite H. split; [reflexivity|]. split; [|split; reflexivity].
      unfold is_expired. rewrite Hx. reflexivity.
  - cbn. log_step. do 2 eexists. split; [reflexivity|]. cbn in *.
    split; [lia|]. left. rewrite H. auto.
Qed.

Lemma set_inv k v ttl w :
  exists w1 w' r,
    set clk k v ttl w = (r, w') /\
    (if (max_size (self w) <=? len (_entries (self w)))
        && negb (contains k (_entries (self w)))
     then _evict clk w = (Ok tt, w1) else w1 = w) /\
    (ticks w1 <= ticks w')%nat /\
    ((r = Ok tt /\
      set_returns ttl (default_ttl (self w)) (clk (ticks w1)) = true /\
      let x := expiry ttl (default_ttl (self w)) (clk (ticks w1)) in
      let n := (ticks w1 + if truthy (py_or ttl (default_ttl (self w)))
                           then 1 else 0)%nat in
      self w' = with_stats incr_sets
                  (with_entries (store k v x (clk n) (clk (S n))) (self w1))) \/
     (r = Raise OverflowError /\
      set_returns ttl (default_ttl (self w)) (clk (ticks w1)) = false /\
      self w' = self w1)).
Proof.
  unfold set, bind, read_self.
  set (cond := (max_size (self w) <=? len (_entries (self w)))
               && negb (contains k (_entries (self w)))).
  assert (Hphase : exists w1,
    (if cond then _evict clk else ret tt) w = (Ok tt, w1) /\
    (if cond then _evict clk w = (Ok tt, w1) else w1 = w)).
  { destruct cond.
    - destruct (_evict clk w) as [r w1] eqn:E.
      destruct (_evict_inv _ _ _ _ E) as (-> & _). eauto.
    - exists w. auto. }
  destruct Hphase as (w1 & -> & Hw1). exists w1.
  unfold expiry, set_returns, truthy.
  destruct (py_or ttl (default_ttl (self w))) as [n|]; cbn.
  - destruct (n =? 0); cbn.
    + rewrite Nat.add_0_r. unfold store.
      destruct (contains k (_entries (self w1))) eqn:Hc; cbn;
        log_step; do 2 eexists; (split; [reflexivity|]); (split; [exact Hw1|]);
        cbn in *; (split; [lia|]); left; (split; [reflexivity|]);
        (split; [reflexivity|]);
        match goal with H : self _ = _ |- _ => rewrite H end;
        unfold with_stats, with_entries; cbn; rewrite Hc; reflexivity.
    + rewrite Nat.add_1_r. unfold lift.
      destruct (timedelta n) as [d|e] eqn:Hd.
      2:{ unfold timedelta in Hd.
          destruct ((-999999999 <=? n / 86400) && (n / 86400 <=? 999999999));
            [discriminate|]. injection Hd as <-.
          do 2 eexists. split; [reflexivity|]. split; [exact Hw1|].
          cbn. split; [lia|]. right. auto. }
      assert (Hdn : d = microseconds n).
      { unfold timedelta in Hd.
        destruct ((-999999999 <=? n / 86400) && (n / 86400 <=? 999999999));
          [congruence | discriminate]. }
      destruct (datetime_add (clk (ticks w1)) d) as [x|e] eqn:Hx.
      2:{ unfold datetime_add, add_from in Hx.
          destruct ((datetime_min <=? clk (ticks w1) + d)
                    && (clk (ticks w1) + d <=? datetime_min + datetime_span));
            [discriminate|]. injection Hx as <-.
          do 2 eexists. split; [reflexivity|]. split; [exact Hw1|].
          cbn. split; [lia|]. right. auto. }
      assert (Hxn : x = clk (ticks w1) + microseconds n).
      { unfold datetime_add, add_from in Hx.
        destruct ((datetime_min <=? clk (ticks w1) + d)
                  && (clk (ticks w1) + d <=? datetime_min + datetime_span));
          [congruence | discriminate]. }
      subst x. unfold store.
      destruct (contains k (_entries (self w1))) eqn:Hc; cbn; rewrite Hc; cbn;
        log_step; do 2 eexists; (split; [reflexivity|]); (split; [exact Hw1|]);
        cbn in *; (split; [lia|]); left; (split; [reflexivity|]);
        (split; [reflexivity|]);
        match goal with H : self _ = _ |- _ => rewrite H end;
        unfold with_stats, with_entries; cbn; rewrite Hc; reflexivity.
  - rewrite Nat.add_0_r. unfold store.
    destruct (contains k (_entries (self w1))) eqn:Hc; cbn;
      log_step; do 2 eexists; (split; [reflexivity|]); (split; [exact Hw1|]);
      cbn in *; (split; [lia|]); left; (split; [reflexivity|]);
      (split; [reflexivity|]);
      match goal with H : self _ = _ |- _ => rewrite H end;
      unfold with_stats, with_entries; cbn; rewrite Hc; reflexivity.
Qed.
(** what a [set] that returns has done *)
Lemma set_inv_ok k v ttl w :
  fst (set clk k v ttl w) = Ok tt ->
  exists w1 w',
    set clk k v ttl w = (Ok tt, w') /\
    (if (max_size (self w) <=? len (_entries (self w)))
        && negb (contains k (_entries (self w)))
     then _evict clk w = (Ok tt, w1) else w1 = w) /\
    (ticks w1 <= ticks w')%nat /\
    let x := expiry ttl (default_ttl (self w)) (clk (ticks w1)) in
    let n := (ticks w1 + if truthy (py_or ttl (default_ttl (self w)))
                         then 1 else 0)%nat in
    self w' = with_stats incr_sets
                (with_entries (store k v x (clk n) (clk (S n))) (self w1)).
Proof.
  intros Hok.
  destruct (set_inv k v ttl w)
    as (w1 & w' & r & E & Hw1 & Ht & [(-> & _ & H) | (-> & _ & _)]).
  - exists w1, w'. auto.
  - rewrite E in Hok. discriminate.
Qed.

Lemma set_returns_iff k v ttl w :
  fst (set clk k v ttl w) = Ok tt <->
  set_returns ttl (default_ttl (self w))
    (clk (ticks (if (max_size (self w) <=? len (_entries (self w)))
                    && negb (contains k (_entries (self w)))
                 then snd (_evict clk w) else w))) = true.
Proof.
  destruct (set_inv k v ttl w)
    as (w1 & w' & r & E & Hw1 & Ht & [(-> & Hr & _) | (-> & Hr & _)]);
    rewrite E; cbn [fst];
    (assert (Hw : (if (max_size (self w) <=? len (_entries (self w)))
                      && negb (contains k (_entries (self w)))
                   then snd (_evict clk w) else w) = w1)
       by (destruct (_ && _); [rewrite Hw1; reflexivity | congruence]));
    rewrite Hw, Hr; split; congruence.
Qed.

(** without a TTL, given or by default, [set] returns *)
Lemma set_ok_no_ttl k v ttl w :
  truthy (py_or ttl (default_ttl (self w))) = false ->
  fst (set clk k v ttl w) = Ok tt.
Proof.
  intros Hno. apply set_returns_iff. unfold set_returns.
  unfold truthy in Hno.
  destruct (py_or ttl (default_ttl (self w))) as [n|]; [|reflexivity].
  destruct (n =? 0); [reflexivity | discriminate].
Qed.

End GetSetFacts.

Section OtherFacts.
Variable clk : nat -> Z.
Import PyDict PyDictFacts.

Lemma delete_inv k w :
  exists w',
    delete clk k w = (Ok (contains k (_entries (self w))), w') /\
    self w' = (if contains k (_entries (self w))
               then with_entries (delitem k) (self w) else self w).
Proof.
  unfold delete, bind, read_self.
  destruct (contains k (_entries (self w))); cbn.
  - log_step. eexists. split; [reflexivity|]. cbn in *. congruence.
  - eexists. split; reflexivity.
Qed.

Lemma clear_inv w :
  exists w',
    clear clk w = (Ok tt, w') /\
    self w' = with_entries (fun _ => empty) (self w).
Proof.
  unfold clear, bind, read_self. cbn.
  log_step. eexists. split; [reflexivity|]. cbn in *. congruence.
Qed.

Lemma hit_rate_of_run s w :
  hit_rate_of s w =
  (Ok (if 0 <? hits s + misses s
       then PrimFloat.mul
              (PrimFloat.div (float_of_int (hits s))
                             (float_of_int (hits s + misses s)))
              (float_of_int 100)
       else float_of_int 0), w).
Proof.
  unfold hit_rate_of, truediv, bind.
  destruct (Z.ltb_spec 0 (hits s + misses s)) as [Hpos|Hle]; [|reflexivity].
  destruct (Z.eqb_spec (hits s + misses s) 0) as [H0|_]; [lia | reflexivity].
Qed.

Lemma get_stats_run w :
  exists report,
    get_stats w = (Ok report, w) /\
    lookup "hit_rate" report =
      Some (PyStr (format_1f
        (if 0 <? hits (stats w) + misses (stats w)
         then PrimFloat.mul
                (PrimFloat.div (float_of_int (hits (stats w)))
                   (float_of_int (hits (stats w) + misses (stats w))))
                (float_of_int 100)
         else float_of_int 0) ++ "%")) /\
    lookup "size" report = Some (PyInt (size w)).
Proof.
  unfold get_stats, bind, read_self. rewrite hit_rate_of_run. cbn.
  eexists. split; [reflexivity|]. split; reflexivity.
Qed.

(** every call of [get] moves exactly one of the three counters *)
Lemma get_counted k dflt w :
  gets_counted (stats (snd (get clk k dflt w))) = gets_counted (stats w) + 1.
Proof.
  destruct (get_cases clk k dflt w) as (r & w' & -> & _ & H). cbn.
  unfold stats, gets_counted.
  destruct H as [(_ & _ & ->) | [(e & x & _ & _ & _ & _ & ->)
                                | (e & t & _ & _ & _ & ->)]]; cbn; lia.
Qed.

Lemma _evict_counted w :
  gets_counted (stats (snd (_evict clk w))) = gets_counted (stats w).
Proof.
  destruct (_evict clk w) as [r w'] eqn:E.
  destruct (_evict_inv _ _ _ _ E) as (_ & _ & [(_ & H) | (k & _ & H)]);
    cbn; unfold stats; rewrite H; reflexivity.
Qed.

Lemma set_counted k v ttl w :
  gets_counted (stats (snd (set clk k v ttl w))) = gets_counted (stats w).
Proof.
  destruct (set_inv clk k v ttl w)
    as (w1 & w' & r & -> & Hw1 & _ & [(_ & _ & H) | (_ & _ & H)]);
    cbv zeta in H; cbn [snd]; unfold stats at 1; rewrite H;
    change (gets_counted (stats w1) = gets_counted (stats w));
    destruct (_ && _).
  - rewrite <- (_evict_counted w), Hw1. reflexivity.
  - subst w1. reflexivity.
  - rewrite <- (_evict_counted w), Hw1. reflexivity.
  - subst w1. reflexivity.
Qed.

Lemma perform_counted c w :
  gets_counted (stats (snd (perform clk c w))) =
  gets_counted (stats w) + get_calls_of c.
Proof.
  destruct c; cbn [perform get_calls_of].
  - unfold forget, bind.
    pose proof (get_counted k default w) as H.
    destruct (get clk k default w) as [[r|e] w']; cbn in *; exact H.
  - rewrite set_counted. lia.
  - unfold forget, bind.
    destruct (delete_inv k w) as (w' & -> & H). cbn.
    unfold stats. rewrite H.
    destruct (contains k _); cbn; lia.
  - destruct (clear_inv w) as (w' & -> & H). cbn.
    unfold stats. rewrite H. cbn. lia.
  - unfold forget, bind.
    destruct (get_stats_run w) as (rep & -> & _). cbn. lia.
  - unfold forget, __contains__, bind.
    pose proof (get_counted k PyNone w) as H.
    destruct (get clk k PyNone w) as [[r|e] w']; cbn in *; exact H.
  - unfold forget, __getitem__, bind.
    pose proof (get_counted k PyNone w) as H.
    destruct (get clk k PyNone w) as [[r|e] w']; cbn in *; [|exact H].
    destruct (is_None r); cbn; exact H.
  - unfold __setitem__. rewrite set_counted. lia.
  - unfold __delitem__, bind.
    destruct (delete_inv k w) as (w' & -> & H).
    assert (Hs : gets_counted (stats w') = gets_counted (stats w)).
    { unfold stats. rewrite H. destruct (contains k _); reflexivity. }
    destruct (contains k _); cbn [negb get_calls_of]; unfold raise, ret;
      cbn [snd]; lia.
  - unfold set_logger, modify_self, stats. cbn. lia.
Qed.
End OtherFacts.

Section SizeFacts.
Variable clk : nat -> Z.
Import PyDict PyDictFacts.

Lemma _evict_size w r w1 :
  _evict clk w = (r, w1) ->
  max_size (self w1) = max_size (self w) /\
  (forall k, contains k (_entries (self w)) = false ->
             contains k (_entries (self w1)) = false) /\
  size w1 <= size w /\
  (0 < size w -> size w1 < size w).
Proof.
  intros E. unfold size.
  destruct (_evict_inv _ _ _ _ E) as (_ & _ & [(Hd & ->) | (k0 & Hmin & ->)]).
  - rewrite Hd. cbn. repeat split; auto; lia.
  - cbn. apply py_min_In, contains_keys in Hmin.
    repeat split.
    + intros k Hk. rewrite contains_delitem, Hk.
      destruct (String.eqb k k0); reflexivity.
    + apply len_delitem_le.
    + intros _. apply len_delitem_lt, Hmin.
Qed.

Lemma len_store k v x t1 t2 d :
  len (store k v x t1 t2 d) = if contains k d then len d else len d + 1.
Proof.
  unfold store. destruct (contains k d) eqn:Hc.
  - rewrite !len_update. reflexivity.
  - apply len_setitem_new, Hc.
Qed.

Lemma set_size k v ttl w :
  let w' := snd (set clk k v ttl w) in
  max_size (self w') = max_size (self w) /\
  (contains k (_entries (self w)) = true -> size w' = size w) /\
  (contains k (_entries (self w)) = false ->
     (size w < max_size (self w) -> size w' <= size w + 1) /\
     (max_size (self w) <= size w -> 0 < size w -> size w' <= size w) /\
     (size w = 0 -> size w' <= 1)).
Proof.
  destruct (set_inv clk k v ttl w) as (w1 & w' & r & -> & Hw1 & _ & H).
  cbv zeta in H. cbn [snd].
  assert (Hmax : max_size (self w') = max_size (self w1))
    by (destruct H as [(_ & _ & H) | (_ & _ & H)]; rewrite H; reflexivity).
  assert (Hlen : size w1 <= size w' <= (if contains k (_entries (self w1))
                                        then size w1 else size w1 + 1)).
  { unfold size. destruct H as [(_ & _ & H) | (_ & _ & H)]; rewrite H.
    - unfold with_stats, with_entries. cbn [_entries].
      rewrite len_store. destruct (contains k (_entries (self w1))); lia.
    - destruct (contains k (_entries (self w1))); lia. }
  clear H. rewrite Hmax.
  destruct (contains k (_entries (self w))) eqn:Hc.
  - rewrite andb_false_r in Hw1. subst w1. rewrite Hc in Hlen.
    split; [reflexivity|]. split; [intros _; lia | discriminate].
  - rewrite andb_true_r in Hw1.
    destruct (Z.leb_spec (max_size (self w)) (len (_entries (self w))))
      as [Hfull|Hroom].
    + destruct (_evict_size _ _ _ Hw1) as (Hm & Hk & Hle & Hlt).
      rewrite (Hk _ Hc) in Hlen. unfold size in *.
      pose proof (len_nonneg (_entries (self w1))).
      split; [exact Hm|]. split; [discriminate|]. intros _.
      repeat split; intros; lia.
    + subst w1. rewrite Hc in Hlen. unfold size in *.
      split; [reflexivity|]. split; [discriminate|]. intros _.
      repeat split; intros; lia.
Qed.

(** a cache with a capacity stays within it under [set] *)
Lemma set_within_capacity k v ttl w :
  0 < max_size (self w) -> size w <= max_size (self w) ->
  let w' := snd (set clk k v ttl w) in
  max_size (self w') = max_size (self w) /\ size w' <= max_size (self w).
Proof.
  intros Hpos Hinv.
  destruct (set_size k v ttl w) as (Hm & Hin & Hout). cbv zeta.
  split; [exact Hm|].
  destruct (contains k (_entries (self w))) eqn:Hc.
  - rewrite (Hin eq_refl). exact Hinv.
  - destruct (Hout eq_refl) as (Hroom & Hfull & _).
    destruct (Z.lt_ge_cases (size w) (max_size (self w))) as [Hlt|Hge].
    + specialize (Hroom Hlt). lia.
    + specialize (Hfull Hge). lia.
Qed.

Lemma run_sets_within_capacity args w :
  0 < max_size (self w) -> size w <= max_size (self w) ->
  size (run clk (set_calls args) w) <= max_size (self w).
Proof.
  revert w. induction args as [|[[k v] ttl] args IH]; intros w Hpos Hinv.
  - exact Hinv.
  - cbn [set_calls map run perform fst snd].
    destruct (set_within_capacity k v ttl w Hpos Hinv) as (Hm & Hs).
    rewrite <- Hm. apply IH; rewrite Hm; assumption.
Qed.

(** a cache whose capacity is not positive never holds two entries *)
Lemma set_at_most_one k v ttl w :
  max_size (self w) <= 0 -> size w <= 1 ->
  let w' := snd (set clk k v ttl w) in
  max_size (self w') = max_size (self w) /\ size w' <= 1.
Proof.
  intros Hneg Hinv.
  destruct (set_size k v ttl w) as (Hm & Hin & Hout). cbv zeta.
  split; [exact Hm|].
  pose proof (len_nonneg (_entries (self w))) as H0. fold (size w) in H0.
  destruct (contains k (_entries (self w))) eqn:Hc.
  - rewrite (Hin eq_refl). exact Hinv.
  - destruct (Hout eq_refl) as (_ & Hfull & Hzero).
    destruct (Z.eq_dec (size w) 0) as [Hz|Hnz].
    + exact (Hzero Hz).
    + assert (max_size (self w) <= size w) by lia.
      assert (0 < size w) by lia. specialize (Hfull H H1). lia.
Qed.

Lemma run_sets_at_most_one args w :
  max_size (self w) <= 0 -> size w <= 1 ->
  size (run clk (set_calls args) w) <= 1.
Proof.
  revert w. induction args as [|[[k v] ttl] args IH]; intros w Hneg Hinv.
  - exact Hinv.
  - cbn [set_calls map run perform fst snd].
    destruct (set_at_most_one k v ttl w Hneg Hinv) as (Hm & Hs).
    apply IH; [rewrite Hm|]; assumption.
Qed.
End SizeFacts.

Section ZeroCapacityFacts.
Variable clk : nat -> Z.
Import PyDict PyDictFacts.





End ZeroCapacityFacts.

Section EntryFacts.
Variable clk : nat -> Z.
Import PyDict PyDictFacts.

Lemma is_expired_true e w :
  fst (is_expired clk e w) = Ok true ->
  exists x, expires e = Some x /\ x < clk (ticks w).
Proof.
  unfold is_expired, bind. destruct (expires e) as [x|]; cbn.
  - destruct (Z.ltb_spec x (clk (ticks w))); [eauto | discriminate].
  - discriminate.
Qed.

Lemma is_expired_false e w :
  fst (is_expired clk e w) = Ok false ->
  expires e = None \/ exists x, expires e = Some x /\ clk (ticks w) <= x.
Proof.
  unfold is_expired, bind. destruct (expires e) as [x|]; cbn; [|auto].
  destruct (Z.ltb_spec x (clk (ticks w))); [discriminate | eauto].
Qed.

Lemma is_expired_never e w :
  expires e = None -> fst (is_expired clk e w) = Ok false.
Proof. unfold is_expired. intros ->. reflexivity. Qed.

Lemma lookup_store k v x t1 t2 d :
  exists e,
    lookup k (store k v x t1 t2 d) = Some e /\ value e = v /\ expires e = x /\
    (forall e0, lookup k d = Some e0 -> created e = created e0).
Proof.
  unfold store. destruct (contains k d) eqn:Hc.
  - destruct (contains_true_lookup _ _ Hc) as [e0 He0].
    rewrite !lookup_update, String.eqb_refl, He0. cbn.
    eexists. split; [reflexivity|]. cbn. repeat split.
    intros e1 [= <-]. reflexivity.
  - rewrite lookup_setitem, String.eqb_refl.
    eexists. split; [reflexivity|]. cbn. repeat split.
    intros e0 He0. apply lookup_contains in He0. congruence.
Qed.

Lemma lookup_store_other k k' v x t1 t2 d :
  k' <> k -> lookup k' (store k v x t1 t2 d) = lookup k' d.
Proof.
  intros Hne. apply String.eqb_neq in Hne. unfold store.
  destruct (contains k d).
  - rewrite !lookup_update, Hne. reflexivity.
  - rewrite lookup_setitem, Hne. reflexivity.
Qed.

Lemma _evict_stats w :
  let s := stats w in
  let s' := stats (snd (_evict clk w)) in
  hits s' = hits s /\ misses s' = misses s /\ sets s' = sets s /\
  expirations s' = expirations s /\ evictions s <= evictions s'.
Proof.
  destruct (_evict clk w) as [r w'] eqn:E.
  destruct (_evict_inv _ _ _ _ E) as (_ & _ & [(_ & H) | (k & _ & H)]);
    cbn; unfold stats; rewrite H; cbn; repeat split; lia.
Qed.

Lemma set_stats k v ttl w :
  let s := stats w in
  let s' := stats (snd (set clk k v ttl w)) in
  hits s' = hits s /\ misses s' = misses s /\
  sets s' = sets s + match fst (set clk k v ttl w) with
                     | Ok _ => 1
                     | Raise _ => 0
                     end /\
  expirations s' = expirations s /\ evictions s <= evictions s'.
Proof.
  destruct (set_inv clk k v ttl w)
    as (w1 & w' & r & -> & Hw1 & _ & [(-> & _ & H) | (-> & _ & H)]);
    cbv zeta in *; cbn [fst snd].
  - assert (Hs : stats w' = incr_sets (stats w1))
      by (unfold stats; rewrite H; reflexivity).
    rewrite Hs. clear Hs H. cbn.
    destruct (_ && _).
    + pose proof (_evict_stats w) as He. rewrite Hw1 in He. cbn in He.
      destruct He as (-> & -> & -> & -> & He). repeat split; lia.
    + subst w1. repeat split; lia.
  - assert (Hs : stats w' = stats w1)
      by (unfold stats; rewrite H; reflexivity).
    rewrite Hs. clear Hs H.
    destruct (_ && _).
    + pose proof (_evict_stats w) as He. rewrite Hw1 in He. cbn in He.
      destruct He as (-> & -> & -> & -> & He). repeat split; lia.
    + subst w1. repeat split; lia.
Qed.

(** a [get] that finds a live entry *)
Lemma get_hit k dflt w e :
  lookup k (_entries (self w)) = Some e ->
  fst (is_expired clk e w) = Ok false ->
  let w' := snd (get clk k dflt w) in
  fst (get clk k dflt w) = Ok (value e) /\
  stats w' = incr_hits (stats w) /\
  exists t, _entries (self w') = update k (accessed_at t) (_entries (self w)).
Proof.
  intros He Hlive.
  destruct (get_cases clk k dflt w) as (r & w' & -> & _ & H). cbn.
  destruct H as [(Hc & _) | [(e' & x & He' & Hx & Hlt & _)
                            | (e' & t & He' & _ & -> & Hs)]].
  - apply lookup_contains in He. congruence.
  - assert (e' = e) as -> by congruence.
    destruct (is_expired_false _ _ Hlive) as [Hn | (x' & Hx' & Hge)];
      [congruence|].
    assert (x' = x) by congruence. lia.
  - assert (e' = e) as -> by congruence. unfold stats. rewrite Hs.
    split; [reflexivity|]. split; [reflexivity|]. exists t. reflexivity.
Qed.

(** a [get] that finds an expired entry *)
Lemma get_expired k dflt w e :
  lookup k (_entries (self w)) = Some e ->
  fst (is_expired clk e w) = Ok true ->
  let w' := snd (get clk k dflt w) in
  fst (get clk k dflt w) = Ok dflt /\
  stats w' = incr_expirations (stats w) /\
  _entries (self w') = delitem k (_entries (self w)).
Proof.
  intros He Hdead.
  destruct (is_expired_true _ _ Hdead) as (x & Hx & Hlt).
  destruct (get_cases clk k dflt w) as (r & w' & -> & _ & H). cbn.
  destruct H as [(Hc & _) | [(e' & x' & He' & Hx' & _ & -> & Hs)
                            | (e' & t & He' & Hlive & _)]].
  - apply lookup_contains in He. congruence.
  - unfold stats. rewrite Hs. repeat split.
  - assert (e' = e) as -> by congruence. congruence.
Qed.

(** a [get] of a key that is absent *)
Lemma get_miss k dflt w :
  contains k (_entries (self w)) = false ->
  let w' := snd (get clk k dflt w) in
  fst (get clk k dflt w) = Ok dflt /\
  stats w' = incr_misses (stats w) /\
  _entries (self w') = _entries (self w).
Proof.
  intros Hc.
  destruct (get_cases clk k dflt w) as (r & w' & -> & _ & H). cbn.
  destruct H as [(_ & -> & Hs) | [(e' & x' & He' & _)
                                 | (e' & t & He' & _)]].
  - unfold stats. rewrite Hs. repeat split.
  - apply lookup_contains in He'. congruence.
  - apply lookup_contains in He'. congruence.
Qed.
End EntryFacts.

Section LruFacts.
Variable clk : nat -> Z.
Import PyDict PyDictFacts.

Lemma field_of_lookup (d : PyDict.t CacheEntry) field k e :
  lookup k d = Some e -> field_of d field k = field e.
Proof. unfold field_of. intros ->. reflexivity. Qed.

(** [set] of an absent key on a full cache: the victim is a key whose
    entry has the smallest value of the field that the policy compares; it
    is evicted whether [set] then returns or raises *)
Lemma set_overflow k v ttl w :
  contains k (_entries (self w)) = false ->
  max_size (self w) <= size w ->
  _entries (self w) <> [] ->
  exists victim e,
    lookup victim (_entries (self w)) = Some e /\
    (forall k' e', lookup k' (_entries (self w)) = Some e' ->
       policy_field (policy (self w)) e <= policy_field (policy (self w)) e') /\
    let w' := snd (set clk k v ttl w) in
    (fst (set clk k v ttl w) = Ok tt \/
     fst (set clk k v ttl w) = Raise OverflowError) /\
    contains victim (_entries (self w')) = false /\
    contains k (_entries (self w')) =
      match fst (set clk k v ttl w) with Ok _ => true | Raise _ => false end /\
    (forall k', k' <> victim -> k' <> k ->
       lookup k' (_entries (self w')) = lookup k' (_entries (self w))) /\
    evictions (stats w') = evictions (stats w) + 1.
Proof.
  intros Hc Hfull Hne.
  destruct (set_inv clk k v ttl w) as (w1 & w' & r & E & Hw1 & _ & H).
  cbv zeta in H. rewrite E. cbn [fst snd].
  rewrite Hc in Hw1. cbn [negb] in Hw1. rewrite andb_true_r in Hw1.
  unfold size in Hfull.
  destruct (Z.leb_spec (max_size (self w)) (len (_entries (self w))))
    as [_|Hbad]; [|lia].
  destruct (_evict_inv _ _ _ _ Hw1)
    as (_ & _ & [(Hnil & _) | (victim & Hmin & Hs)]); [contradiction|].
  pose proof (py_min_In _ _ _ Hmin) as Hin.
  apply contains_keys in Hin.
  destruct (contains_true_lookup _ _ Hin) as [e He].
  assert (Hvk : victim <> k) by (intros ->; congruence).
  exists victim, e. split; [exact He|]. split.
  - intros k' e' He'.
    pose proof (py_min_le _ _ _ k' Hmin) as Hle.
    rewrite (field_of_lookup _ _ _ _ He), (field_of_lookup _ _ _ _ He') in Hle.
    apply Hle, contains_keys, (lookup_contains _ _ _ He').
  - cbv zeta. destruct H as [(-> & _ & H) | (-> & _ & H)].
    + split; [left; reflexivity|].
      assert (Hd : _entries (self w') =
                   store k v (expiry ttl (default_ttl (self w)) (clk (ticks w1)))
                     (clk (ticks w1 + (if truthy (py_or ttl (default_ttl (self w)))
                                       then 1 else 0)))
                     (clk (S (ticks w1 + (if truthy (py_or ttl (default_ttl (self w)))
                                          then 1 else 0))))
                     (delitem victim (_entries (self w))))
        by (rewrite H, Hs; reflexivity).
      assert (Hst : stats w' = incr_sets (incr_evictions (stats w)))
        by (unfold stats; rewrite H, Hs; reflexivity).
      rewrite Hd, Hst. clear H Hd Hst.
      match goal with
      | |- context [store k v ?x ?t1 ?t2 ?d] =>
          destruct (lookup_store k v x t1 t2 d) as (e' & He' & _);
          pose proof (lookup_store_other k victim v x t1 t2 d Hvk) as Hv
      end.
      split; [|split; [|split]].
      * rewrite contains_lookup, Hv, lookup_delitem, String.eqb_refl.
        reflexivity.
      * apply (lookup_contains _ _ _ He').
      * intros k' Hk'v Hk'k.
        rewrite lookup_store_other, lookup_delitem by exact Hk'k.
        apply String.eqb_neq in Hk'v. rewrite Hk'v. reflexivity.
      * reflexivity.
    + split; [right; reflexivity|].
      assert (Hd : _entries (self w') = delitem victim (_entries (self w)))
        by (rewrite H, Hs; reflexivity).
      assert (Hst : stats w' = incr_evictions (stats w))
        by (unfold stats; rewrite H, Hs; reflexivity).
      rewrite Hd, Hst. clear H Hd Hst.
      split; [|split; [|split]].
      * rewrite contains_delitem, String.eqb_refl. reflexivity.
      * rewrite contains_delitem, Hc.
        destruct (String.eqb k victim); reflexivity.
      * intros k' Hk'v Hk'k. rewrite lookup_delitem.
        apply String.eqb_neq in Hk'v. rewrite Hk'v. reflexivity.
      * reflexivity.
Qed.

End LruFacts.

(** ** The properties of the specification *)

(** *** Hit and miss accounting *)

(** C3, as stated, fails: with a TTL of one second and a clock that advances
    one second per reading, the [get] finds the entry expired and counts it
    neither as a hit nor as a miss, so [hits + misses] is 0 after one call of
    [get]. *)
Lemma C3_expired_get_is_neither_hit_nor_miss :
  let cs := [CallSet "k" (PyInt 1) (Some 1); CallGet "k" PyNone] in
  let w := run tclk cs (fresh (new_cache "c" 100 LRU None) 0) in
  __init__ "c" 100 LRU None = Ok (new_cache "c" 100 LRU None) /\
  hits (stats w) + misses (stats w) = 0 /\
  expirations (stats w) = 1 /\
  get_calls cs = 1 /\
  hits (stats w) + misses (stats w) <> get_calls cs.
Proof. vm_compute. repeat split; congruence. Qed.

(** C3, amended: over every sequence of calls on the cache, from every state
    and under every clock, [hits + misses + expirations] grows by the number
    of calls of [get] (those made through [in] and indexing included): each
    [get] increments exactly one of the three counters, and no other method
    touches them. *)
Theorem C3_hits_misses_expirations_count_gets
    (clk : nat -> Z) (cs : list call) (w : World) :
  let s := stats w in
  let s' := stats (run clk cs w) in
  hits s' + misses s' + expirations s' =
  hits s + misses s + expirations s + get_calls cs.
Proof.
  cbv zeta. revert w.
  induction cs as [|c cs IH]; intros w; cbn [run get_calls]; [lia|].
  rewrite IH.
  pose proof (perform_counted clk c w) as H. unfold gets_counted in H. lia.
Qed.

(** *** Capacity *)

(** C4: a cache built with [max_size > 0] holds at most [max_size] entries
    after each [set] of every sequence of [set] calls, under every clock. *)
Theorem C4_size_within_max_size
    (clk : nat -> Z) (nm : string) (ms : Z) (pol : EvictionPolicy)
    (dttl : option Z) (c : Cache) (t0 : nat)
    (args : list (string * pyobj * option Z)) (n : nat) :
  __init__ nm ms pol dttl = Ok c ->
  0 < ms ->
  size (run clk (set_calls (firstn n args)) (fresh c t0)) <= ms.
Proof.
  intros [= <-] Hpos.
  apply (run_sets_within_capacity clk (firstn n args)
           (fresh (new_cache nm ms pol dttl) t0)); cbn; lia.
Qed.

Lemma C4_size_within_max_size_witness :
  let args := [("A", PyInt 1, None); ("B", PyInt 2, None); ("C", PyInt 3, None)] in
  __init__ "c" 2 LRU None = Ok (new_cache "c" 2 LRU None) /\
  0 < 2 /\
  size (run tclk (set_calls (firstn 3 args)) (fresh (new_cache "c" 2 LRU None) 0))
    <= 2.
Proof.
  cbv zeta. split; [reflexivity|]. split; [lia|].
  apply (C4_size_within_max_size tclk "c" 2 LRU None); [reflexivity | lia].
Defined.

(** *** Construction *)

(** C5, as stated, fails: the constructor accepts [max_size = -1]. *)
Lemma C5_negative_max_size_is_accepted :
  __init__ "c" (-1) LRU None = Ok (new_cache "c" (-1) LRU None) /\
  (forall e, __init__ "c" (-1) LRU None <> Raise e) /\
  max_size (new_cache "c" (-1) LRU None) = -1.
Proof. repeat split. intros e. discriminate. Qed.

(** C5, amended: the constructor validates nothing.  With a negative
    [max_size] it returns an empty cache that stores the value as given, and
    the value acts only at run time: the cache then never holds more than one
    entry, whatever is [set]. *)
Theorem C5_init_accepts_negative_max_size
    (nm : string) (ms : Z) (pol : EvictionPolicy) (dttl : option Z) :
  ms < 0 ->
  exists c,
    __init__ nm ms pol dttl = Ok c /\
    max_size c = ms /\ _entries c = PyDict.empty /\
    forall clk t0 args, size (run clk (set_calls args) (fresh c t0)) <= 1.
Proof.
  intros Hneg. exists (new_cache nm ms pol dttl).
  repeat split.
  intros clk t0 args. apply run_sets_at_most_one; cbn; lia.
Qed.

Lemma C5_init_accepts_negative_max_size_witness :
  -1 < 0 /\
  exists c,
    __init__ "c" (-1) LRU None = Ok c /\
    max_size c = -1 /\ _entries c = PyDict.empty /\
    forall clk t0 args, size (run clk (set_calls args) (fresh c t0)) <= 1.
Proof.
  split; [lia|].
  apply (C5_init_accepts_negative_max_size "c" (-1) LRU None). lia.
Defined.

(** *** A capacity of zero *)




(** *** Expiration *)

(** C9: a [get] on a key whose entry is expired removes that entry and no
    other, adds exactly 1 to [expirations], returns the default, and leaves
    [hits] and [misses] as they were. *)
Theorem C9_get_of_expired_entry
    (clk : nat -> Z) (k : string) (dflt : pyobj) (w : World) (e : CacheEntry) :
  PyDict.lookup k (_entries (self w)) = Some e ->
  fst (is_expired clk e w) = Ok true ->
  let w' := snd (get clk k dflt w) in
  fst (get clk k dflt w) = Ok dflt /\
  PyDict.contains k (_entries (self w')) = false /\
  (forall k', k' <> k ->
     PyDict.lookup k' (_entries (self w')) = PyDict.lookup k' (_entries (self w))) /\
  expirations (stats w') = expirations (stats w) + 1 /\
  hits (stats w') = hits (stats w) /\
  misses (stats w') = misses (stats w).
Proof.
  intros He Hdead.
  destruct (get_expired clk k dflt w e He Hdead) as (Hr & Hs & Hd).
  cbv zeta. rewrite Hr, Hs, Hd. split; [reflexivity|]. split; [|split].
  - rewrite PyDictFacts.contains_delitem, String.eqb_refl. reflexivity.
  - intros k' Hne. rewrite PyDictFacts.lookup_delitem.
    apply String.eqb_neq in Hne. rewrite Hne. reflexivity.
  - cbn. auto.
Qed.

Lemma C9_get_of_expired_entry_witness :
  let w := run tclk [CallSet "k" (PyInt 1) (Some 1); CallSet "j" (PyInt 2) None]
               (fresh (new_cache "c" 100 LRU None) 0) in
  let e := mkCacheEntry "k" (PyInt 1) 1000000 2000000 0 (Some 1000000) in
  let w' := snd (get tclk "k" (PyStr "default") w) in
  PyDict.lookup "k" (_entries (self w)) = Some e /\
  fst (is_expired tclk e w) = Ok true /\
  fst (get tclk "k" (PyStr "default") w) = Ok (PyStr "default") /\
  PyDict.contains "k" (_entries (self w')) = false /\
  (forall k', k' <> "k" ->
     PyDict.lookup k' (_entries (self w')) = PyDict.lookup k' (_entries (self w))) /\
  expirations (stats w') = expirations (stats w) + 1 /\
  hits (stats w') = hits (stats w) /\
  misses (stats w') = misses (stats w).
Proof.
  cbv zeta. split; [reflexivity|]. split; [reflexivity|].
  apply (C9_get_of_expired_entry tclk "k" (PyStr "default")
           (run tclk [CallSet "k" (PyInt 1) (Some 1); CallSet "j" (PyInt 2) None]
                (fresh (new_cache "c" 100 LRU None) 0))
           (mkCacheEntry "k" (PyInt 1) 1000000 2000000 0 (Some 1000000)));
    reflexivity.
Defined.

(** C2, as stated, fails: on a cache without a default TTL, [set] with
    [ttl=0] stores an entry that never expires, and the [get] that follows
    returns the stored value and counts a hit; [expirations] stays 0. *)
Lemma C2_ttl_zero_does_not_expire :
  let w0 := fresh (new_cache "c" 100 LRU None) 0 in
  let w1 := snd (set tclk "k" (PyInt 7) (Some 0) w0) in
  let w2 := snd (get tclk "k" (PyStr "default") w1) in
  fst (get tclk "k" (PyStr "default") w1) = Ok (PyInt 7) /\
  fst (get tclk "k" (PyStr "default") w1) <> Ok (PyStr "default") /\
  expirations (stats w2) = expirations (stats w0) /\
  expirations (stats w2) <> expirations (stats w0) + 1.
Proof. vm_compute. repeat split; congruence. Qed.

(** C2, amended: [set(k, v, ttl=0)] is [set(k, v)]: a TTL of 0 counts as
    no TTL given, so the default TTL of the cache applies.  On a cache
    without a default TTL the entry never expires: the [get] that follows
    returns [v], adds 1 to [hits] and leaves [expirations] unchanged,
    whatever the clock reads. *)
Theorem C2_ttl_zero_is_no_ttl
    (clk : nat -> Z) (k : string) (v dflt : pyobj) (w : World) :
  set clk k v (Some 0) w = set clk k v None w /\
  (truthy (default_ttl (self w)) = false ->
   let w1 := snd (set clk k v (Some 0) w) in
   let w2 := snd (get clk k dflt w1) in
   fst (get clk k dflt w1) = Ok v /\
   hits (stats w2) = hits (stats w) + 1 /\
   expirations (stats w2) = expirations (stats w)).
Proof.
  split; [reflexivity|]. intros Hnone. cbv zeta.
  destruct (set_stats clk k v (Some 0) w) as (Hh & _ & _ & Hx & _).
  assert (Hok : fst (set clk k v (Some 0) w) = Ok tt)
    by (apply set_ok_no_ttl; unfold py_or; cbn; exact Hnone).
  destruct (set_inv_ok clk k v (Some 0) w Hok) as (w1 & w' & E & _ & _ & H).
  cbv zeta in *. rewrite E in *. cbn [snd] in *.
  assert (Hexp : expiry (Some 0) (default_ttl (self w)) (clk (ticks w1)) = None).
  { unfold expiry, py_or. cbn. unfold truthy in Hnone.
    destruct (default_ttl (self w)) as [n|]; [|reflexivity].
    destruct (n =? 0); [reflexivity | discriminate]. }
  rewrite Hexp in H.
  match type of H with
  | _ = with_stats _ (with_entries (store _ _ _ ?t1 ?t2) _) =>
      destruct (lookup_store k v None t1 t2 (_entries (self w1)))
        as (e & He & Hv & Hn & _)
  end.
  assert (He' : PyDict.lookup k (_entries (self w')) = Some e)
    by (rewrite H; exact He).
  destruct (get_hit clk k dflt w' e He' (is_expired_never clk e w' Hn))
    as (Hr & Hs & _).
  rewrite Hr, Hs, Hv. cbn. split; [reflexivity|]. split; lia.
Qed.

Lemma C2_ttl_zero_is_no_ttl_witness :
  let w := fresh (new_cache "c" 100 LRU None) 0 in
  let w1 := snd (set tclk "k" (PyInt 7) (Some 0) w) in
  let w2 := snd (get tclk "k" (PyStr "default") w1) in
  truthy (default_ttl (self w)) = false /\
  fst (get tclk "k" (PyStr "default") w1) = Ok (PyInt 7) /\
  hits (stats w2) = hits (stats w) + 1 /\
  expirations (stats w2) = expirations (stats w).
Proof.
  cbv zeta. split; [reflexivity|].
  apply (proj2 (C2_ttl_zero_is_no_ttl tclk "k" (PyInt 7) (PyStr "default")
                  (fresh (new_cache "c" 100 LRU None) 0))).
  reflexivity.
Defined.

(** *** Overwriting a key *)

(** C8, as stated, fails: on a cache at capacity that holds A without an
    expiry, [set] of A with a TTL of 10^12 seconds raises [OverflowError],
    the expiry being past [datetime.max]; the entry keeps its old value and
    its old expiry. *)
Lemma C8_set_of_present_key_may_raise :
  let w := run tclk [CallSet "A" (PyInt 1) None; CallSet "B" (PyInt 2) None]
               (fresh (new_cache "c" 2 LRU None) 0) in
  let w' := snd (set tclk "A" (PyInt 9) (Some 1000000000000) w) in
  __init__ "c" 2 LRU None = Ok (new_cache "c" 2 LRU None) /\
  PyDict.contains "A" (_entries (self w)) = true /\
  size w = max_size (self w) /\
  fst (set tclk "A" (PyInt 9) (Some 1000000000000) w) = Raise OverflowError /\
  exists e',
    PyDict.lookup "A" (_entries (self w')) = Some e' /\
    value e' = PyInt 1 /\ value e' <> PyInt 9 /\ expires e' = None.
Proof.
  vm_compute. repeat split.
  eexists. repeat split; congruence.
Qed.

(** C8, amended: [set] on a key that is present, the cache at capacity or
    not, never evicts and never changes the size: the guard of [_evict] is
    false, the keys keep their order, every other entry stays as it was, and
    [evictions] is unchanged.  [set] returns exactly when the expiry it
    computes is in the range of [datetime]; the entry under the key then has
    the new value and the new expiry in place and keeps its creation time.
    Otherwise [set] raises [OverflowError] and the cache is left as it
    was. *)
Theorem C8_set_of_present_key_updates_in_place
    (clk : nat -> Z) (k : string) (v : pyobj) (ttl : option Z) (w : World)
    (e : CacheEntry) :
  PyDict.lookup k (_entries (self w)) = Some e ->
  let w' := snd (set clk k v ttl w) in
  (max_size (self w) <=? PyDict.len (_entries (self w)))
    && negb (PyDict.contains k (_entries (self w))) = false /\
  size w' = size w /\
  evictions (stats w') = evictions (stats w) /\
  PyDict.keys (_entries (self w')) = PyDict.keys (_entries (self w)) /\
  (forall k', k' <> k ->
     PyDict.lookup k' (_entries (self w')) = PyDict.lookup k' (_entries (self w))) /\
  (fst (set clk k v ttl w) = Ok tt <->
   set_returns ttl (default_ttl (self w)) (clk (ticks w)) = true) /\
  (fst (set clk k v ttl w) = Ok tt ->
   exists e',
     PyDict.lookup k (_entries (self w')) = Some e' /\
     value e' = v /\
     expires e' = expiry ttl (default_ttl (self w)) (clk (ticks w)) /\
     created e' = created e) /\
  (fst (set clk k v ttl w) <> Ok tt ->
   fst (set clk k v ttl w) = Raise OverflowError /\ self w' = self w).
Proof.
  intros He. pose proof (PyDictFacts.lookup_contains _ _ _ He) as Hc.
  assert (Hguard : (max_size (self w) <=? PyDict.len (_entries (self w)))
                   && negb (PyDict.contains k (_entries (self w))) = false)
    by (rewrite Hc; apply andb_false_r).
  pose proof (set_returns_iff clk k v ttl w) as Hiff.
  rewrite Hguard in Hiff.
  destruct (set_inv clk k v ttl w) as (w1 & w' & r & E & Hw1 & _ & H).
  cbv zeta in *. rewrite E in *. cbn [fst snd] in *.
  rewrite Hguard in Hw1. subst w1.
  split; [exact Hguard|].
  destruct H as [(-> & _ & H) | (-> & _ & H)].
  - match type of H with
    | _ = with_stats _ (with_entries (store _ _ ?x ?t1 ?t2) _) =>
        assert (Hd : _entries (self w') = store k v x t1 t2 (_entries (self w)))
          by (rewrite H; reflexivity);
        destruct (lookup_store k v x t1 t2 (_entries (self w)))
          as (e' & He' & Hv & Hx & Hcr)
    end.
    assert (Hs : stats w' = incr_sets (stats w))
      by (unfold stats; rewrite H; reflexivity).
    unfold size. rewrite Hd, Hs. clear H Hd Hs.
    split; [|split; [reflexivity|split; [|split; [|split; [|split]]]]].
    + rewrite len_store, Hc. reflexivity.
    + unfold store. rewrite Hc. rewrite !PyDictFacts.keys_update. reflexivity.
    + intros k' Hne. apply lookup_store_other, Hne.
    + exact Hiff.
    + intros _. exists e'. repeat split; auto.
    + intros Hno. contradiction Hno. reflexivity.
  - unfold size, stats. rewrite H.
    split; [reflexivity|]. split; [reflexivity|]. split; [reflexivity|].
    split; [reflexivity|]. split; [exact Hiff|].
    split; [discriminate|]. intros _. split; reflexivity.
Qed.

Lemma C8_set_of_present_key_updates_in_place_witness :
  let w := run tclk [CallSet "A" (PyInt 1) None; CallSet "B" (PyInt 2) None]
               (fresh (new_cache "c" 2 LRU None) 0) in
  let e := mkCacheEntry "A" (PyInt 1) 0 1000000 0 None in
  let w' := snd (set tclk "A" (PyInt 9) (Some 60) w) in
  PyDict.lookup "A" (_entries (self w)) = Some e /\
  size w = max_size (self w) /\
  fst (set tclk "A" (PyInt 9) (Some 60) w) = Ok tt /\
  (max_size (self w) <=? PyDict.len (_entries (self w)))
    && negb (PyDict.contains "A" (_entries (self w))) = false /\
  size w' = size w /\
  evictions (stats w') = evictions (stats w) /\
  PyDict.keys (_entries (self w')) = PyDict.keys (_entries (self w)) /\
  (exists e',
     PyDict.lookup "A" (_entries (self w')) = Some e' /\
     value e' = PyInt 9 /\
     expires e' = expiry (Some 60) (default_ttl (self w)) (tclk (ticks w)) /\
     created e' = created e).
Proof.
  cbv zeta. split; [reflexivity|]. split; [reflexivity|].
  split; [reflexivity|].
  destruct (C8_set_of_present_key_updates_in_place tclk "A" (PyInt 9) (Some 60)
              (run tclk [CallSet "A" (PyInt 1) None; CallSet "B" (PyInt 2) None]
                   (fresh (new_cache "c" 2 LRU None) 0))
              (mkCacheEntry "A" (PyInt 1) 0 1000000 0 None) eq_refl)
    as (Hg & Hsz & Hev & Hk & _ & _ & Hup & _).
  split; [exact Hg|]. split; [exact Hsz|]. split; [exact Hev|].
  split; [exact Hk|]. apply Hup. reflexivity.
Defined.

(** *** A stored None *)

(** C10: for a key that is present and not expired and whose stored value
    is [None], [key in cache] is [False] and [cache[key]] raises [KeyError],
    although [get(key, default)] with a default other than [None] tells the
    key from an absent one: it returns [None] for this key and the default
    for an absent key. *)
Theorem C10_stored_None_looks_absent
    (clk : nat -> Z) (k : string) (w : World) (e : CacheEntry) :
  PyDict.lookup k (_entries (self w)) = Some e ->
  fst (is_expired clk e w) = Ok false ->
  value e = PyNone ->
  fst (__contains__ clk k w) = Ok false /\
  fst (__getitem__ clk k w) = Raise (KeyError k) /\
  (forall dflt, is_None dflt = false ->
     fst (get clk k dflt w) = Ok PyNone /\
     fst (get clk k dflt w) <> Ok dflt /\
     (forall k', PyDict.contains k' (_entries (self w)) = false ->
        fst (get clk k' dflt w) = Ok dflt)).
Proof.
  intros He Hlive Hv.
  pose proof (fun d => proj1 (get_hit clk k d w e He Hlive)) as Hget.
  rewrite Hv in Hget.
  split; [|split].
  - unfold __contains__, bind. specialize (Hget PyNone).
    destruct (get clk k PyNone w) as [r w']. cbn in *. subst r. reflexivity.
  - unfold __getitem__, bind. specialize (Hget PyNone).
    destruct (get clk k PyNone w) as [r w']. cbn in *. subst r. reflexivity.
  - intros dflt Hd. rewrite Hget. split; [reflexivity|]. split.
    + intros [= <-]. discriminate.
    + intros k' Hk'. apply (get_miss clk k' dflt w Hk').
Qed.

Lemma C10_stored_None_looks_absent_witness :
  let w := run tclk [CallSet "k" PyNone None]
               (fresh (new_cache "c" 100 LRU None) 0) in
  let e := mkCacheEntry "k" PyNone 0 1000000 0 None in
  PyDict.lookup "k" (_entries (self w)) = Some e /\
  fst (is_expired tclk e w) = Ok false /\
  value e = PyNone /\
  fst (__contains__ tclk "k" w) = Ok false /\
  fst (__getitem__ tclk "k" w) = Raise (KeyError "k") /\
  (forall dflt, is_None dflt = false ->
     fst (get tclk "k" dflt w) = Ok PyNone /\
     fst (get tclk "k" dflt w) <> Ok dflt /\
     (forall k', PyDict.contains k' (_entries (self w)) = false ->
        fst (get tclk k' dflt w) = Ok dflt)).
Proof.
  cbv zeta. split; [reflexivity|]. split; [reflexivity|]. split; [reflexivity|].
  apply (C10_stored_None_looks_absent tclk "k"
           (run tclk [CallSet "k" PyNone None]
                (fresh (new_cache "c" 100 LRU None) 0))
           (mkCacheEntry "k" PyNone 0 1000000 0 None)); reflexivity.
Defined.

(** *** The hit rate *)



(** *** Eviction under LRU *)




(** ** Further properties of [Cache] *)

Section CallFacts.
Variable clk : nat -> Z.
Import PyDict PyDictFacts.

Lemma get_counters k dflt w :
  let s' := stats (snd (get clk k dflt w)) in
  s' = incr_hits (stats w) \/ s' = incr_misses (stats w) \/
  s' = incr_expirations (stats w).
Proof.
  destruct (get_cases clk k dflt w) as (r & w' & -> & _ & H). cbn [snd].
  unfold stats.
  destruct H as [(_ & _ & ->) | [(e & x & _ & _ & _ & _ & ->)
                                | (e & t & _ & _ & _ & ->)]]; cbn; auto.
Qed.

Lemma get_config k dflt w :
  same_config (self w) (self (snd (get clk k dflt w))) /\
  logger (self (snd (get clk k dflt w))) = logger (self w).
Proof.
  destruct (get_cases clk k dflt w) as (r & w' & -> & _ & H). cbn [snd].
  destruct H as [(_ & _ & ->) | [(e & x & _ & _ & _ & _ & ->)
                                | (e & t & _ & _ & _ & ->)]];
    repeat split.
Qed.

Lemma _evict_config w :
  same_config (self w) (self (snd (_evict clk w))) /\
  logger (self (snd (_evict clk w))) = logger (self w).
Proof.
  destruct (_evict clk w) as [r w'] eqn:E.
  destruct (_evict_inv _ _ _ _ E) as (_ & _ & [(_ & H) | (k & _ & H)]);
    cbn [snd]; rewrite H; repeat split.
Qed.

Lemma set_config k v ttl w :
  same_config (self w) (self (snd (set clk k v ttl w))) /\
  logger (self (snd (set clk k v ttl w))) = logger (self w).
Proof.
  destruct (set_inv clk k v ttl w)
    as (w1 & w' & r & -> & Hw1 & _ & [(_ & _ & H) | (_ & _ & H)]);
    cbv zeta in H; cbn [snd]; rewrite H;
    (assert (Hc : same_config (self w) (self w1) /\
                  logger (self w1) = logger (self w))
       by (destruct (_ && _);
           [pose proof (_evict_config w) as He; rewrite Hw1 in He; exact He
           |subst w1; repeat split]));
    destruct Hc as ((H1 & H2 & H3 & H4) & H5); repeat split; cbn; assumption.
Qed.

Lemma set_evictions k v ttl w :
  let e := evictions (stats w) in
  let e' := evictions (stats (snd (set clk k v ttl w))) in
  e' = e \/ e' = e + 1.
Proof.
  destruct (set_inv clk k v ttl w) as (w1 & w' & r & -> & Hw1 & _ & H).
  cbv zeta in *. cbn [snd].
  assert (Hs : evictions (stats w') = evictions (stats w1))
    by (unfold stats; destruct H as [(_ & _ & H) | (_ & _ & H)];
        rewrite H; reflexivity).
  rewrite Hs. destruct (_ && _); [|subst; auto].
  destruct (_evict_inv _ _ _ _ Hw1) as (_ & _ & [(_ & He) | (k0 & _ & He)]);
    unfold stats; rewrite He; cbn; auto.
Qed.

Lemma set_returned_bounds c w :
  0 <= set_returned clk c w <= sets_made_by c.
Proof.
  unfold set_returned. destruct c; cbn [sets_made_by]; try lia;
    destruct (fst (perform clk _ w)); lia.
Qed.

Lemma set_returned_all c w :
  (exists u, fst (perform clk c w) = Ok u) ->
  set_returned clk c w = sets_made_by c.
Proof.
  intros [u Hu]. unfold set_returned.
  destruct c; cbn [sets_made_by]; try reflexivity; rewrite Hu; reflexivity.
Qed.

(** what one call does to the counters and to the configuration *)
Lemma perform_effect c w :
  let s := stats w in
  let s' := stats (snd (perform clk c w)) in
  same_config (self w) (self (snd (perform clk c w))) /\
  counters_le s s' /\
  sets s' = sets s + set_returned clk c w /\
  evictions s' <= evictions s + sets_made_by c.
Proof.
  cbv zeta.
  assert (Hget : forall k d,
    same_config (self w) (self (snd (get clk k d w))) /\
    counters_le (stats w) (stats (snd (get clk k d w))) /\
    sets (stats (snd (get clk k d w))) = sets (stats w) + 0 /\
    evictions (stats (snd (get clk k d w))) <= evictions (stats w) + 0).
  { intros k d. split; [apply get_config|].
    destruct (get_counters k d w) as [H | [H | H]]; cbv zeta in H; rewrite H;
      unfold counters_le; cbn; repeat split; lia. }
  assert (Hset : forall k v ttl,
    same_config (self w) (self (snd (set clk k v ttl w))) /\
    counters_le (stats w) (stats (snd (set clk k v ttl w))) /\
    sets (stats (snd (set clk k v ttl w))) =
      sets (stats w) + match fst (set clk k v ttl w) with
                       | Ok _ => 1
                       | Raise _ => 0
                       end /\
    evictions (stats (snd (set clk k v ttl w))) <= evictions (stats w) + 1).
  { intros k v ttl. split; [apply set_config|].
    destruct (set_stats clk k v ttl w) as (Hh & Hm & Hs & Hx & He).
    pose proof (set_evictions k v ttl w) as Hev. cbv zeta in *.
    unfold counters_le.
    destruct (fst (set clk k v ttl w)); repeat split; lia. }
  assert (Hdel : forall k,
    same_config (self w) (self (snd (delete clk k w))) /\
    stats (snd (delete clk k w)) = stats w).
  { intros k. destruct (delete_inv clk k w) as (w' & -> & H). cbn [snd].
    unfold stats. rewrite H. destruct (contains k _); repeat split. }
  assert (Hsame : forall w', same_config (self w) (self w') ->
    stats w' = stats w ->
    same_config (self w) (self w') /\ counters_le (stats w) (stats w') /\
    sets (stats w') = sets (stats w) + 0 /\
    evictions (stats w') <= evictions (stats w) + 0).
  { intros w' Hc ->. unfold counters_le. repeat split; try apply Hc; lia. }
  destruct c; cbn [perform sets_made_by set_returned].
  - unfold forget, bind. specialize (Hget k default).
    destruct (get clk k default w) as [[r|e] w']; exact Hget.
  - apply Hset.
  - unfold forget, bind. specialize (Hdel k).
    destruct (delete clk k w) as [[r|e] w']; cbn [snd] in *;
      apply Hsame; apply Hdel.
  - destruct (clear_inv clk w) as (w' & -> & H). cbn [snd].
    apply Hsame; [|unfold stats]; rewrite H; repeat split.
  - unfold forget, bind.
    destruct (get_stats_run w) as (rep & -> & _). cbn [snd].
    apply Hsame; repeat split.
  - unfold forget, __contains__, bind. specialize (Hget k PyNone).
    destruct (get clk k PyNone w) as [[r|e] w']; exact Hget.
  - unfold forget, __getitem__, bind. specialize (Hget k PyNone).
    destruct (get clk k PyNone w) as [[r|e] w']; [|exact Hget].
    destruct (is_None r); exact Hget.
  - unfold __setitem__. apply Hset.
  - unfold __delitem__, bind. specialize (Hdel k).
    destruct (delete clk k w) as [[[|]|e] w']; cbn [snd negb] in *;
      apply Hsame; apply Hdel.
  - unfold set_logger, modify_self. cbn [snd]. apply Hsame; repeat split.
Qed.
End CallFacts.

(** *** Deleting and clearing *)

(** X1: [delete] returns whether the key was present, removes it and
    nothing else, and touches no counter; the [get] of that key that follows
    returns the default and counts one miss. *)
Theorem X1_delete_then_get_misses
    (clk : nat -> Z) (k : string) (dflt : pyobj) (w : World) :
  let w1 := snd (delete clk k w) in
  let w2 := snd (get clk k dflt w1) in
  fst (delete clk k w) = Ok (PyDict.contains k (_entries (self w))) /\
  PyDict.contains k (_entries (self w1)) = false /\
  (forall k', k' <> k ->
     PyDict.lookup k' (_entries (self w1)) = PyDict.lookup k' (_entries (self w))) /\
  stats w1 = stats w /\
  fst (get clk k dflt w1) = Ok dflt /\
  stats w2 = incr_misses (stats w).
Proof.
  cbv zeta. destruct (delete_inv clk k w) as (w1 & E & H).
  rewrite E. cbn [fst snd].
  assert (Hgone : PyDict.contains k (_entries (self w1)) = false).
  { rewrite H. destruct (PyDict.contains k (_entries (self w))) eqn:Hc;
      [|exact Hc].
    cbn. rewrite PyDictFacts.contains_delitem, String.eqb_refl. reflexivity. }
  assert (Hst : stats w1 = stats w).
  { unfold stats. rewrite H.
    destruct (PyDict.contains k (_entries (self w))); reflexivity. }
  destruct (get_miss clk k dflt w1 Hgone) as (Hr & Hs & _).
  split; [reflexivity|]. split; [exact Hgone|]. split; [|split; [exact Hst|]].
  - intros k' Hne. rewrite H.
    destruct (PyDict.contains k (_entries (self w))); [|reflexivity].
    cbn. rewrite PyDictFacts.lookup_delitem.
    apply String.eqb_neq in Hne. rewrite Hne. reflexivity.
  - split; [exact Hr|]. rewrite Hs, Hst. reflexivity.
Qed.

(** X2: [del cache[key]] raises [KeyError] exactly when the key is absent,
    and then leaves the cache object as it was; when the key is present it
    returns normally and the key is gone. *)
Theorem X2_delitem_raises_on_missing_key
    (clk : nat -> Z) (k : string) (w : World) :
  let w' := snd (__delitem__ clk k w) in
  (PyDict.contains k (_entries (self w)) = false ->
     fst (__delitem__ clk k w) = Raise (KeyError k) /\ self w' = self w) /\
  (PyDict.contains k (_entries (self w)) = true ->
     fst (__delitem__ clk k w) = Ok tt /\
     PyDict.contains k (_entries (self w')) = false /\
     stats w' = stats w).
Proof.
  cbv zeta. unfold __delitem__, bind.
  destruct (delete_inv clk k w) as (w1 & -> & H).
  split; intros Hc; rewrite Hc in *; cbn.
  - split; [reflexivity | exact H].
  - split; [reflexivity|]. unfold stats. rewrite H. cbn.
    rewrite PyDictFacts.contains_delitem, String.eqb_refl. auto.
Qed.

Lemma X2_delitem_raises_on_missing_key_witness :
  let w := run tclk [CallSet "A" (PyInt 1) None]
               (fresh (new_cache "c" 2 LRU None) 0) in
  PyDict.contains "Z" (_entries (self w)) = false /\
  PyDict.contains "A" (_entries (self w)) = true /\
  fst (__delitem__ tclk "Z" w) = Raise (KeyError "Z") /\
  self (snd (__delitem__ tclk "Z" w)) = self w /\
  fst (__delitem__ tclk "A" w) = Ok tt /\
  PyDict.contains "A" (_entries (self (snd (__delitem__ tclk "A" w)))) = false.
Proof.
  cbv zeta. split; [reflexivity|]. split; [reflexivity|].
  destruct (proj1 (X2_delitem_raises_on_missing_key tclk "Z"
             (run tclk [CallSet "A" (PyInt 1) None]
                  (fresh (new_cache "c" 2 LRU None) 0))) eq_refl) as (H1 & H2).
  destruct (proj2 (X2_delitem_raises_on_missing_key tclk "A"
             (run tclk [CallSet "A" (PyInt 1) None]
                  (fresh (new_cache "c" 2 LRU None) 0))) eq_refl)
    as (H3 & H4 & _).
  auto.
Defined.

(** X3: [clear] removes every entry and resets no counter; the configuration
    stays, and every [get] that follows returns its default and counts a
    miss. *)
Theorem X3_clear_empties_and_keeps_counters
    (clk : nat -> Z) (k : string) (dflt : pyobj) (w : World) :
  let w1 := snd (clear clk w) in
  fst (clear clk w) = Ok tt /\
  _entries (self w1) = [] /\ size w1 = 0 /\
  stats w1 = stats w /\
  same_config (self w) (self w1) /\
  fst (get clk k dflt w1) = Ok dflt /\
  stats (snd (get clk k dflt w1)) = incr_misses (stats w).
Proof.
  cbv zeta. destruct (clear_inv clk w) as (w1 & -> & H). cbn [fst snd].
  assert (Hd : _entries (self w1) = []) by (rewrite H; reflexivity).
  assert (Hs : stats w1 = stats w) by (unfold stats; rewrite H; reflexivity).
  destruct (get_miss clk k dflt w1) as (Hr & Hm & _);
    [rewrite Hd; reflexivity|].
  split; [reflexivity|]. split; [exact Hd|].
  split; [unfold size; rewrite Hd; reflexivity|]. split; [exact Hs|].
  split; [rewrite H; repeat split|]. split; [exact Hr|].
  rewrite Hm, Hs. reflexivity.
Qed.

(** *** The counters and the configuration over any sequence of calls *)

(** X4: over every sequence of calls, from every state, none of the five
    counters ever decreases: nothing resets them, [clear] included. *)
Theorem X4_counters_never_decrease
    (clk : nat -> Z) (cs : list call) (w : World) :
  counters_le (stats w) (stats (run clk cs w)).
Proof.
  revert w. induction cs as [|c cs IH]; intros w; cbn [run].
  - unfold counters_le. repeat split; lia.
  - destruct (perform_effect clk c w) as (_ & Hle & _).
    specialize (IH (snd (perform clk c w))).
    unfold counters_le in *. cbv zeta in *. repeat split; lia.
Qed.

(** X5: over every sequence of calls, [sets] grows by exactly the number of
    calls of [set] that returned (those made through [cache[k] = v]
    included): a [set] that raises [OverflowError] for its TTL is not
    counted.  So [sets] grows by the number of calls of [set] when every call
    returned, and by no more otherwise.  [evictions] grows by at most the
    number of calls of [set]: one [set] evicts at most one entry, and no
    other method evicts. *)
Theorem X5_sets_counted_and_evictions_bounded
    (clk : nat -> Z) (cs : list call) (w : World) :
  let s := stats w in
  let s' := stats (run clk cs w) in
  sets s' = sets s + sets_returned clk cs w /\
  0 <= sets_returned clk cs w <= sets_made cs /\
  (all_return clk cs w = true -> sets_returned clk cs w = sets_made cs) /\
  evictions s <= evictions s' <= evictions s + sets_made cs.
Proof.
  cbv zeta. revert w.
  induction cs as [|c cs IH]; intros w;
    cbn [run sets_made sets_returned all_return].
  - repeat split; lia.
  - destruct (perform_effect clk c w) as (_ & Hle & Hs & He).
    pose proof (set_returned_bounds clk c w) as Hb.
    destruct (IH (snd (perform clk c w))) as (I1 & I2 & I3 & I4).
    unfold counters_le in Hle. cbv zeta in *.
    split; [lia|]. split; [lia|]. split; [|lia].
    destruct (fst (perform clk c w)) as [u|e] eqn:Hr; [|discriminate].
    intros Hall. rewrite (I3 Hall), (set_returned_all clk c w); [lia|].
    exists u. exact Hr.
Qed.

Lemma X5_sets_counted_and_evictions_bounded_witness :
  let cs := [CallSet "a" (PyInt 1) None;
             CallSet "b" (PyInt 2) (Some 1000000000000);
             CallGet "a" PyNone; CallSetItem "c" (PyInt 3)] in
  let w := fresh (new_cache "c" 100 LRU None) 0 in
  all_return tclk cs w = false /\
  sets_made cs = 3 /\
  sets_returned tclk cs w = 2 /\
  sets (stats (run tclk cs w)) = 2 /\
  evictions (stats (run tclk cs w)) = 0.
Proof.
  cbv zeta.
  destruct (X5_sets_counted_and_evictions_bounded tclk
              [CallSet "a" (PyInt 1) None;
               CallSet "b" (PyInt 2) (Some 1000000000000);
               CallGet "a" PyNone; CallSetItem "c" (PyInt 3)]
              (fresh (new_cache "c" 100 LRU None) 0)) as (Hs & _ & _ & He).
  split; [reflexivity|]. split; [reflexivity|]. split; [reflexivity|].
  split; [exact Hs | reflexivity].
Defined.

(** X6: no sequence of calls changes the name, the capacity, the policy or
    the default TTL that the cache was built with. *)
Theorem X6_configuration_is_never_changed
    (clk : nat -> Z) (cs : list call) (w : World) :
  same_config (self w) (self (run clk cs w)).
Proof.
  revert w. induction cs as [|c cs IH]; intros w; cbn [run].
  - repeat split.
  - destruct (perform_effect clk c w) as ((H1 & H2 & H3 & H4) & _).
    destruct (IH (snd (perform clk c w))) as (I1 & I2 & I3 & I4).
    repeat split; congruence.
Qed.

(** *** What is set is what is read, until it expires *)

Section RoundTripFacts.
Variable clk : nat -> Z.
Import PyDict PyDictFacts.

Lemma _evict_ticks w : (ticks w <= ticks (snd (_evict clk w)))%nat.
Proof.
  destruct (_evict clk w) as [r w'] eqn:E.
  destruct (_evict_inv _ _ _ _ E) as (_ & H & _). exact H.
Qed.

(** the entry that a [set] that returns leaves under the key, and when its
    expiry was computed *)
Lemma set_entry k v ttl w :
  fst (set clk k v ttl w) = Ok tt ->
  let w' := snd (set clk k v ttl w) in
  exists n e,
    (ticks w <= n <= ticks w')%nat /\
    lookup k (_entries (self w')) = Some e /\
    value e = v /\
    expires e = expiry ttl (default_ttl (self w)) (clk n).
Proof.
  intros Hok.
  destruct (set_inv_ok clk k v ttl w Hok) as (w1 & w' & -> & Hw1 & Ht & H).
  cbv zeta in *. cbn [snd].
  assert (Ht1 : (ticks w <= ticks w1)%nat).
  { destruct (_ && _); [|subst; lia].
    pose proof (_evict_ticks w) as He. rewrite Hw1 in He. exact He. }
  match type of H with
  | _ = with_stats _ (with_entries (store _ _ ?x ?t1 ?t2) _) =>
      destruct (lookup_store k v x t1 t2 (_entries (self w1)))
        as (e & He & Hv & Hx & _)
  end.
  exists (ticks w1), e. split; [lia|]. rewrite H. auto.
Qed.

Lemma expiry_cases ttl dflt t :
  (truthy (py_or ttl dflt) = false /\ expiry ttl dflt t = None) \/
  (exists n, py_or ttl dflt = Some n /\ n <> 0 /\
             expiry ttl dflt t = Some (t + microseconds n)).
Proof.
  unfold expiry, truthy. destruct (py_or ttl dflt) as [n|]; [|auto].
  destruct (Z.eqb_spec n 0) as [->|Hn]; [left; auto | right; eauto].
Qed.

(** a [get] of a key whose entry is expired by the time of the reading *)
Lemma get_when_expired k dflt w e x :
  lookup k (_entries (self w)) = Some e ->
  expires e = Some x -> x < clk (ticks w) ->
  fst (get clk k dflt w) = Ok dflt /\
  stats (snd (get clk k dflt w)) = incr_expirations (stats w) /\
  contains k (_entries (self (snd (get clk k dflt w)))) = false.
Proof.
  intros He Hx Hlt.
  assert (Hdead : fst (is_expired clk e w) = Ok true).
  { unfold is_expired, bind. rewrite Hx. cbn.
    destruct (Z.ltb_spec x (clk (ticks w))); [reflexivity | lia]. }
  destruct (get_expired clk k dflt w e He Hdead) as (Hr & Hs & Hd).
  cbv zeta in *. rewrite Hr, Hs, Hd.
  rewrite contains_delitem, String.eqb_refl. auto.
Qed.

(** a [get] of a key whose entry is live at the time of the reading *)
Lemma get_when_live k dflt w e :
  lookup k (_entries (self w)) = Some e ->
  (forall x, expires e = Some x -> clk (ticks w) <= x) ->
  fst (get clk k dflt w) = Ok (value e) /\
  stats (snd (get clk k dflt w)) = incr_hits (stats w).
Proof.
  intros He Hx.
  assert (Hlive : fst (is_expired clk e w) = Ok false).
  { unfold is_expired, bind. destruct (expires e) as [x|]; [|reflexivity].
    cbn. specialize (Hx x eq_refl).
    destruct (Z.ltb_spec x (clk (ticks w))); [lia | reflexivity]. }
  destruct (get_hit clk k dflt w e He Hlive) as (Hr & Hs & _). auto.
Qed.

(** the reading of the clock that [get] stores in a live entry *)
Lemma get_hit_time k dflt w e :
  lookup k (_entries (self w)) = Some e ->
  fst (is_expired clk e w) = Ok false ->
  _entries (self (snd (get clk k dflt w))) =
  update k (accessed_at (clk (ticks (snd (is_expired clk e w)))))
         (_entries (self w)).
Proof.
  intros He Hlive. pose proof (lookup_contains _ _ _ He) as Hc.
  unfold get, bind, read_self. rewrite Hc.
  unfold entry_of, bind, read_self. rewrite He. cbn.
  destruct (is_expired clk e w) as [[b|ex] w1] eqn:E; cbn in Hlive;
    [|discriminate].
  injection Hlive as ->.
  assert (Hself : self w1 = self w).
  { unfold is_expired, bind in E. destruct (expires e); cbn in E.
    - injection E as _ <-. reflexivity.
    - injection E as <-. reflexivity. }
  cbn. log_step. cbn in *. rewrite H, Hself. reflexivity.
Qed.
End RoundTripFacts.

(** X7: what a [set] that returns has stored is what [get] returns, as long
    as the entry has not expired.  Under a clock that never goes back, when
    [set] returned (its expiry was in the range of [datetime]), if no TTL
    applies, or if the clock at the [get] reads no later than the TTL after
    its reading when [set] was called, then the [get] returns the value set
    and counts a hit, however many readings of the clock were made in
    between. *)
Theorem X7_set_then_get_returns_the_value
    (clk : nat -> Z) (k : string) (v dflt : pyobj) (ttl : option Z)
    (w : World) (m : nat) :
  monotone clk ->
  fst (set clk k v ttl w) = Ok tt ->
  let w1 := later (snd (set clk k v ttl w)) m in
  (forall x, expiry ttl (default_ttl (self w)) (clk (ticks w)) = Some x ->
             clk (ticks w1) <= x) ->
  fst (get clk k dflt w1) = Ok v /\
  hits (stats (snd (get clk k dflt w1))) = hits (stats w) + 1.
Proof.
  intros Hmono Hok w1 Hlive. subst w1.
  destruct (set_entry clk k v ttl w Hok) as (n & e & Hn & He & Hv & Hx).
  destruct (set_stats clk k v ttl w) as (Hh & _).
  cbv zeta in *.
  set (w' := snd (set clk k v ttl w)) in *.
  destruct (get_when_live clk k dflt (later w' m) e He) as (Hr & Hs).
  - intros x Hex. rewrite Hx in Hex.
    destruct (expiry_cases ttl (default_ttl (self w)) (clk (ticks w)))
      as [(_ & Hnone) | (t & Hor & Hnz & Hsome)].
    + unfold expiry in *. destruct (py_or ttl (default_ttl (self w))) as [t|];
        [|discriminate].
      destruct (t =? 0); discriminate.
    + specialize (Hlive _ Hsome).
      unfold expiry in Hex. rewrite Hor in Hex.
      destruct (t =? 0); [discriminate|]. injection Hex as <-.
      pose proof (Hmono (ticks w) n (proj1 Hn)). lia.
  - rewrite Hr, Hs, Hv. split; [reflexivity|].
    change (stats (later w' m)) with (stats w'). cbn. lia.
Qed.

Lemma X7_set_then_get_returns_the_value_witness :
  let w := fresh (new_cache "c" 100 LRU None) 0 in
  let w1 := later (snd (set tclk "k" (PyInt 7) (Some 60) w)) 50 in
  monotone tclk /\
  fst (set tclk "k" (PyInt 7) (Some 60) w) = Ok tt /\
  (forall x, expiry (Some 60) (default_ttl (self w)) (tclk (ticks w)) = Some x ->
             tclk (ticks w1) <= x) /\
  fst (get tclk "k" PyNone w1) = Ok (PyInt 7) /\
  hits (stats (snd (get tclk "k" PyNone w1))) = hits (stats w) + 1.
Proof.
  cbv zeta.
  assert (Hmono : monotone tclk) by (intros i j Hij; unfold tclk; lia).
  assert (Hlive : forall x,
    expiry (Some 60) (default_ttl (self (fresh (new_cache "c" 100 LRU None) 0)))
           (tclk (ticks (fresh (new_cache "c" 100 LRU None) 0))) = Some x ->
    tclk (ticks (later (snd (set tclk "k" (PyInt 7) (Some 60)
                               (fresh (new_cache "c" 100 LRU None) 0))) 50))
      <= x).
  { intros x [= <-]. vm_compute. discriminate. }
  split; [exact Hmono|]. split; [reflexivity|]. split; [exact Hlive|].
  apply (X7_set_then_get_returns_the_value tclk "k" (PyInt 7) PyNone (Some 60)
           (fresh (new_cache "c" 100 LRU None) 0) 50 Hmono eq_refl Hlive).
Defined.

Section ExpiryFacts.
Variable clk : nat -> Z.

(** the [get] that follows a [set] whose entry has expired by then *)
Lemma set_then_get_expired k v dflt ttl w m n :
  monotone clk ->
  py_or ttl (default_ttl (self w)) = Some n -> n <> 0 ->
  fst (set clk k v ttl w) = Ok tt ->
  let w1 := later (snd (set clk k v ttl w)) m in
  (forall i, (i <= ticks (snd (set clk k v ttl w)))%nat ->
             clk i + microseconds n < clk (ticks w1)) ->
  fst (get clk k dflt w1) = Ok dflt /\
  stats (snd (get clk k dflt w1)) =
    incr_expirations (stats (snd (set clk k v ttl w))) /\
  PyDict.contains k (_entries (self (snd (get clk k dflt w1)))) = false.
Proof.
  intros Hmono Hor Hnz Hok w1 Hlate. subst w1.
  destruct (set_entry clk k v ttl w Hok) as (n0 & e & Hn & He & _ & Hx).
  cbv zeta in *. set (w' := snd (set clk k v ttl w)) in *.
  unfold expiry in Hx. rewrite Hor in Hx.
  destruct (Z.eqb_spec n 0) as [|_]; [contradiction|].
  apply (get_when_expired clk k dflt (later w' m) e _ He Hx).
  apply Hlate. lia.
Qed.
End ExpiryFacts.

(** X8: an entry set with a TTL is gone once the TTL has elapsed.  Under a
    clock that never goes back, if a TTL of [n] seconds applies ([n] is not
    0), [set] returned (its expiry was in the range of [datetime]) and the
    clock at the [get] reads more than [n] seconds after its reading when
    [set] returned, the [get] returns the default, removes the entry and
    counts one expiration and neither a hit nor a miss. *)
Theorem X8_get_after_the_ttl_returns_default
    (clk : nat -> Z) (k : string) (v dflt : pyobj) (ttl : option Z)
    (w : World) (m : nat) (n : Z) :
  monotone clk ->
  py_or ttl (default_ttl (self w)) = Some n -> n <> 0 ->
  fst (set clk k v ttl w) = Ok tt ->
  let w' := snd (set clk k v ttl w) in
  let w1 := later w' m in
  clk (ticks w') + microseconds n < clk (ticks w1) ->
  fst (get clk k dflt w1) = Ok dflt /\
  PyDict.contains k (_entries (self (snd (get clk k dflt w1)))) = false /\
  expirations (stats (snd (get clk k dflt w1))) = expirations (stats w) + 1 /\
  hits (stats (snd (get clk k dflt w1))) = hits (stats w) /\
  misses (stats (snd (get clk k dflt w1))) = misses (stats w).
Proof.
  intros Hmono Hor Hnz Hok w' w1 Hlate. subst w1 w'.
  destruct (set_then_get_expired clk k v dflt ttl w m n Hmono Hor Hnz Hok)
    as (Hr & Hs & Hgone).
  - intros i Hi. pose proof (Hmono i _ Hi). lia.
  - destruct (set_stats clk k v ttl w) as (Hh & Hm & _ & Hx & _).
    cbv zeta in *. rewrite Hr, Hs, Hgone.
    cbn [incr_expirations hits misses expirations]. repeat split; lia.
Qed.

Lemma X8_get_after_the_ttl_returns_default_witness :
  let w := fresh (new_cache "c" 100 LRU None) 0 in
  let w' := snd (set tclk "k" (PyInt 7) (Some 60) w) in
  let w1 := later w' 70 in
  monotone tclk /\
  py_or (Some 60) (default_ttl (self w)) = Some 60 /\
  fst (set tclk "k" (PyInt 7) (Some 60) w) = Ok tt /\
  tclk (ticks w') + microseconds 60 < tclk (ticks w1) /\
  fst (get tclk "k" PyNone w1) = Ok PyNone /\
  PyDict.contains "k" (_entries (self (snd (get tclk "k" PyNone w1)))) = false /\
  expirations (stats (snd (get tclk "k" PyNone w1))) = expirations (stats w) + 1.
Proof.
  cbv zeta.
  assert (Hmono : monotone tclk) by (intros i j Hij; unfold tclk; lia).
  split; [exact Hmono|]. split; [reflexivity|]. split; [reflexivity|].
  split; [reflexivity|].
  destruct (X8_get_after_the_ttl_returns_default tclk "k" (PyInt 7) PyNone
              (Some 60) (fresh (new_cache "c" 100 LRU None) 0) 70 60
              Hmono eq_refl) as (H1 & H2 & H3 & _).
  - discriminate.
  - reflexivity.
  - reflexivity.
  - auto.
Defined.

(** X9: a negative TTL stores an entry that is already expired.  Under a
    clock that never goes back, after a [set] with a negative TTL in force
    that returned (its expiry was no earlier than [datetime.min]), every
    later [get] of the key returns the default and counts an expiration; the
    value set is never read back. *)
Theorem X9_negative_ttl_is_already_expired
    (clk : nat -> Z) (k : string) (v dflt : pyobj) (ttl : option Z)
    (w : World) (m : nat) (n : Z) :
  monotone clk ->
  py_or ttl (default_ttl (self w)) = Some n -> n < 0 ->
  fst (set clk k v ttl w) = Ok tt ->
  let w1 := later (snd (set clk k v ttl w)) m in
  fst (get clk k dflt w1) = Ok dflt /\
  PyDict.contains k (_entries (self (snd (get clk k dflt w1)))) = false /\
  expirations (stats (snd (get clk k dflt w1))) = expirations (stats w) + 1.
Proof.
  intros Hmono Hor Hneg Hok w1. subst w1.
  destruct (set_then_get_expired clk k v dflt ttl w m n Hmono Hor)
    as (Hr & Hs & Hgone); [lia | exact Hok | |].
  - intros i Hi.
    pose proof (Hmono i (ticks (later (snd (set clk k v ttl w)) m))) as H.
    cbn [later ticks] in *. unfold microseconds. specialize (H ltac:(lia)). lia.
  - destruct (set_stats clk k v ttl w) as (_ & _ & _ & Hx & _).
    cbv zeta in *. rewrite Hr, Hs, Hgone.
    cbn [incr_expirations hits misses expirations]. repeat split; lia.
Qed.

Lemma X9_negative_ttl_is_already_expired_witness :
  let w := fresh (new_cache "c" 100 LRU None) 100 in
  let w1 := later (snd (set tclk "k" (PyInt 7) (Some (-1)) w)) 0 in
  monotone tclk /\
  py_or (Some (-1)) (default_ttl (self w)) = Some (-1) /\
  -1 < 0 /\
  fst (set tclk "k" (PyInt 7) (Some (-1)) w) = Ok tt /\
  fst (get tclk "k" (PyStr "default") w1) = Ok (PyStr "default") /\
  PyDict.contains "k"
    (_entries (self (snd (get tclk "k" (PyStr "default") w1)))) = false /\
  expirations (stats (snd (get tclk "k" (PyStr "default") w1))) =
    expirations (stats w) + 1.
Proof.
  cbv zeta.
  assert (Hmono : monotone tclk) by (intros i j Hij; unfold tclk; lia).
  split; [exact Hmono|]. split; [reflexivity|]. split; [lia|].
  split; [reflexivity|].
  apply (X9_negative_ttl_is_already_expired tclk "k" (PyInt 7) (PyStr "default")
           (Some (-1)) (fresh (new_cache "c" 100 LRU None) 100) 0 (-1)
           Hmono eq_refl).
  - lia.
  - reflexivity.
Defined.

(** *** Reading an entry *)

(** X10: a [get] that finds a live entry records the access in place: the
    entry gets the reading of the clock as [last_accessed] and one more
    [access_count], and keeps its value, creation time and expiry; the order
    of the keys, every other entry and the size stay as they were. *)
Theorem X10_get_records_the_access
    (clk : nat -> Z) (k : string) (dflt : pyobj) (w : World) (e : CacheEntry) :
  PyDict.lookup k (_entries (self w)) = Some e ->
  fst (is_expired clk e w) = Ok false ->
  let w' := snd (get clk k dflt w) in
  let t := match expires e with
           | Some _ => clk (S (ticks w))
           | None => clk (ticks w)
           end in
  PyDict.lookup k (_entries (self w')) =
    Some (mkCacheEntry (key e) (value e) (created e) t (access_count e + 1)
                       (expires e)) /\
  PyDict.keys (_entries (self w')) = PyDict.keys (_entries (self w)) /\
  (forall k', k' <> k ->
     PyDict.lookup k' (_entries (self w')) = PyDict.lookup k' (_entries (self w))) /\
  size w' = size w.
Proof.
  intros He Hlive. cbv zeta. unfold size.
  rewrite (get_hit_time clk k dflt w e He Hlive).
  rewrite PyDictFacts.lookup_update, String.eqb_refl, He.
  rewrite PyDictFacts.keys_update, PyDictFacts.len_update.
  split; [|split; [reflexivity|split; [|reflexivity]]].
  - unfold is_expired, bind, accessed_at.
    destruct (expires e) eqn:Hx; cbn; rewrite Hx; reflexivity.
  - intros k' Hne. rewrite PyDictFacts.lookup_update.
    apply String.eqb_neq in Hne. rewrite Hne. reflexivity.
Qed.

Lemma X10_get_records_the_access_witness :
  let w := run tclk [CallSet "A" (PyInt 1) (Some 60); CallSet "B" (PyInt 2) None]
               (fresh (new_cache "c" 2 LRU None) 0) in
  let e := mkCacheEntry "A" (PyInt 1) 1000000 2000000 0 (Some 60000000) in
  let w' := snd (get tclk "A" PyNone w) in
  PyDict.lookup "A" (_entries (self w)) = Some e /\
  fst (is_expired tclk e w) = Ok false /\
  PyDict.lookup "A" (_entries (self w')) =
    Some (mkCacheEntry "A" (PyInt 1) 1000000 6000000 1 (Some 60000000)) /\
  PyDict.keys (_entries (self w')) = ["A"; "B"] /\
  size w' = size w.
Proof.
  cbv zeta. split; [reflexivity|]. split; [reflexivity|].
  destruct (X10_get_records_the_access tclk "A" PyNone
              (run tclk [CallSet "A" (PyInt 1) (Some 60);
                         CallSet "B" (PyInt 2) None]
                   (fresh (new_cache "c" 2 LRU None) 0))
              (mkCacheEntry "A" (PyInt 1) 1000000 2000000 0 (Some 60000000))
              eq_refl eq_refl) as (H1 & H2 & _ & H4).
  split; [exact H1|]. split; [rewrite H2; reflexivity | exact H4].
Defined.

(** *** The other eviction policies *)

(** X11: under FIFO, when an absent key is set on a full cache, exactly one
    entry is removed and no entry present before was created earlier than
    it.  Reading does not change that order: a [get] leaves the creation
    time of every entry it keeps as it was. *)
Theorem X11_fifo_evicts_the_oldest_entry
    (clk : nat -> Z) (k : string) (v : pyobj) (ttl : option Z) (w : World) :
  policy (self w) = FIFO ->
  PyDict.contains k (_entries (self w)) = false ->
  max_size (self w) <= size w ->
  _entries (self w) <> [] ->
  (exists victim e,
     PyDict.lookup victim (_entries (self w)) = Some e /\
     (forall k' e', PyDict.lookup k' (_entries (self w)) = Some e' ->
        created e <= created e') /\
     let w' := snd (set clk k v ttl w) in
     PyDict.contains victim (_entries (self w')) = false /\
     (forall k', k' <> victim -> k' <> k ->
        PyDict.lookup k' (_entries (self w')) =
        PyDict.lookup k' (_entries (self w))) /\
     evictions (stats w') = evictions (stats w) + 1) /\
  (forall k0 dflt k' e',
     PyDict.lookup k' (_entries (self (snd (get clk k0 dflt w)))) = Some e' ->
     exists e0, PyDict.lookup k' (_entries (self w)) = Some e0 /\
                created e' = created e0).
Proof.
  intros Hpol Hc Hfull Hne. split.
  - destruct (set_overflow clk k v ttl w Hc Hfull Hne)
      as (victim & e & He & Hmin & _ & Hgone & _ & Hrest & Hev).
    rewrite Hpol in Hmin. exists victim, e. cbv zeta. auto.
  - intros k0 dflt k' e'.
    destruct (get_cases clk k0 dflt w) as (r & w' & -> & _ & H). cbn [snd].
    destruct H as [(_ & _ & ->) | [(e & x & _ & _ & _ & _ & ->)
                                  | (e & t & He & _ & _ & ->)]]; cbn.
    + eauto.
    + rewrite PyDictFacts.lookup_delitem.
      destruct (String.eqb k' k0); [discriminate | eauto].
    + rewrite PyDictFacts.lookup_update.
      destruct (String.eqb_spec k' k0) as [->|_]; [|eauto].
      rewrite He. cbn. intros [= <-]. eauto.
Qed.

Lemma X11_fifo_evicts_the_oldest_entry_witness :
  let w := run tclk [CallSet "A" (PyInt 1) None; CallSet "B" (PyInt 2) None;
                     CallGet "A" PyNone]
               (fresh (new_cache "c" 2 FIFO None) 0) in
  let w' := snd (set tclk "C" (PyInt 3) None w) in
  policy (self w) = FIFO /\
  PyDict.contains "C" (_entries (self w)) = false /\
  max_size (self w) <= size w /\
  _entries (self w) <> [] /\
  PyDict.keys (_entries (self w')) = ["B"; "C"] /\
  exists victim e,
    PyDict.lookup victim (_entries (self w)) = Some e /\
    (forall k' e', PyDict.lookup k' (_entries (self w)) = Some e' ->
       created e <= created e') /\
    PyDict.contains victim (_entries (self w')) = false.
Proof.
  cbv zeta.
  assert (Hfull : max_size (self (run tclk
            [CallSet "A" (PyInt 1) None; CallSet "B" (PyInt 2) None;
             CallGet "A" PyNone] (fresh (new_cache "c" 2 FIFO None) 0)))
          <= size (run tclk
            [CallSet "A" (PyInt 1) None; CallSet "B" (PyInt 2) None;
             CallGet "A" PyNone] (fresh (new_cache "c" 2 FIFO None) 0)))
    by (vm_compute; discriminate).
  assert (Hne : _entries (self (run tclk
            [CallSet "A" (PyInt 1) None; CallSet "B" (PyInt 2) None;
             CallGet "A" PyNone] (fresh (new_cache "c" 2 FIFO None) 0))) <> [])
    by (vm_compute; discriminate).
  split; [reflexivity|]. split; [reflexivity|].
  split; [exact Hfull|]. split; [exact Hne|]. split; [reflexivity|].
  destruct (X11_fifo_evicts_the_oldest_entry tclk "C" (PyInt 3) None
              (run tclk [CallSet "A" (PyInt 1) None; CallSet "B" (PyInt 2) None;
                         CallGet "A" PyNone]
                   (fresh (new_cache "c" 2 FIFO None) 0))
              eq_refl eq_refl Hfull Hne)
    as ((victim & e & Hl & Hmin & Hgone & _) & _).
  exists victim, e. auto.
Defined.

(** X12: under LFU, when an absent key is set on a full cache, exactly one
    entry is removed and no entry present before had a smaller
    [access_count] than it. *)
Theorem X12_lfu_evicts_the_least_accessed_entry
    (clk : nat -> Z) (k : string) (v : pyobj) (ttl : option Z) (w : World) :
  policy (self w) = LFU ->
  PyDict.contains k (_entries (self w)) = false ->
  max_size (self w) <= size w ->
  _entries (self w) <> [] ->
  exists victim e,
    PyDict.lookup victim (_entries (self w)) = Some e /\
    (forall k' e', PyDict.lookup k' (_entries (self w)) = Some e' ->
       access_count e <= access_count e') /\
    let w' := snd (set clk k v ttl w) in
    PyDict.contains victim (_entries (self w')) = false /\
    (forall k', k' <> victim -> k' <> k ->
       PyDict.lookup k' (_entries (self w')) =
       PyDict.lookup k' (_entries (self w))) /\
    evictions (stats w') = evictions (stats w) + 1.
Proof.
  intros Hpol Hc Hfull Hne.
  destruct (set_overflow clk k v ttl w Hc Hfull Hne)
    as (victim & e & He & Hmin & _ & Hgone & _ & Hrest & Hev).
  rewrite Hpol in Hmin. exists victim, e. cbv zeta. auto.
Qed.

Lemma X12_lfu_evicts_the_least_accessed_entry_witness :
  let w := run tclk [CallSet "A" (PyInt 1) None; CallSet "B" (PyInt 2) None;
                     CallGet "A" PyNone]
               (fresh (new_cache "c" 2 LFU None) 0) in
  let w' := snd (set tclk "C" (PyInt 3) None w) in
  policy (self w) = LFU /\
  PyDict.contains "C" (_entries (self w)) = false /\
  max_size (self w) <= size w /\
  _entries (self w) <> [] /\
  PyDict.keys (_entries (self w')) = ["A"; "C"] /\
  exists victim e,
    PyDict.lookup victim (_entries (self w)) = Some e /\
    (forall k' e', PyDict.lookup k' (_entries (self w)) = Some e' ->
       access_count e <= access_count e') /\
    PyDict.contains victim (_entries (self w')) = false.
Proof.
  cbv zeta.
  assert (Hfull : max_size (self (run tclk
            [CallSet "A" (PyInt 1) None; CallSet "B" (PyInt 2) None;
             CallGet "A" PyNone] (fresh (new_cache "c" 2 LFU None) 0)))
          <= size (run tclk
            [CallSet "A" (PyInt 1) None; CallSet "B" (PyInt 2) None;
             CallGet "A" PyNone] (fresh (new_cache "c" 2 LFU None) 0)))
    by (vm_compute; discriminate).
  assert (Hne : _entries (self (run tclk
            [CallSet "A" (PyInt 1) None; CallSet "B" (PyInt 2) None;
             CallGet "A" PyNone] (fresh (new_cache "c" 2 LFU None) 0))) <> [])
    by (vm_compute; discriminate).
  split; [reflexivity|]. split; [reflexivity|].
  split; [exact Hfull|]. split; [exact Hne|]. split; [reflexivity|].
  destruct (X12_lfu_evicts_the_least_accessed_entry tclk "C" (PyInt 3) None
              (run tclk [CallSet "A" (PyInt 1) None; CallSet "B" (PyInt 2) None;
                         CallGet "A" PyNone]
                   (fresh (new_cache "c" 2 LFU None) 0))
              eq_refl eq_refl Hfull Hne)
    as (victim & e & Hl & Hmin & Hgone & _).
  exists victim, e. auto.
Defined.

(** X13: the TTL policy has no rule of its own for a full cache.  When an
    absent key is set on a full cache under TTL, the entry removed is chosen
    as under LRU, by the oldest [last_accessed]; whether an entry has
    expired, or when it will, plays no part. *)
Theorem X13_ttl_policy_evicts_as_lru
    (clk : nat -> Z) (k : string) (v : pyobj) (ttl : option Z) (w : World) :
  policy (self w) = TTL ->
  PyDict.contains k (_entries (self w)) = false ->
  max_size (self w) <= size w ->
  _entries (self w) <> [] ->
  exists victim e,
    PyDict.lookup victim (_entries (self w)) = Some e /\
    (forall k' e', PyDict.lookup k' (_entries (self w)) = Some e' ->
       last_accessed e <= last_accessed e') /\
    let w' := snd (set clk k v ttl w) in
    PyDict.contains victim (_entries (self w')) = false /\
    (forall k', k' <> victim -> k' <> k ->
       PyDict.lookup k' (_entries (self w')) =
       PyDict.lookup k' (_entries (self w))) /\
    evictions (stats w') = evictions (stats w) + 1.
Proof.
  intros Hpol Hc Hfull Hne.
  destruct (set_overflow clk k v ttl w Hc Hfull Hne)
    as (victim & e & He & Hmin & _ & Hgone & _ & Hrest & Hev).
  rewrite Hpol in Hmin. exists victim, e. cbv zeta. auto.
Qed.

Lemma X13_ttl_policy_evicts_as_lru_witness :
  let w := run tclk [CallSet "A" (PyInt 1) (Some 1); CallSet "B" (PyInt 2) None;
                     CallGet "B" PyNone]
               (fresh (new_cache "c" 2 TTL None) 0) in
  let w' := snd (set tclk "C" (PyInt 3) None w) in
  policy (self w) = TTL /\
  PyDict.contains "C" (_entries (self w)) = false /\
  max_size (self w) <= size w /\
  _entries (self w) <> [] /\
  PyDict.keys (_entries (self w')) = ["B"; "C"] /\
  exists victim e,
    PyDict.lookup victim (_entries (self w)) = Some e /\
    (forall k' e', PyDict.lookup k' (_entries (self w)) = Some e' ->
       last_accessed e <= last_accessed e') /\
    PyDict.contains victim (_entries (self w')) = false.
Proof.
  cbv zeta.
  assert (Hfull : max_size (self (run tclk
            [CallSet "A" (PyInt 1) (Some 1); CallSet "B" (PyInt 2) None;
             CallGet "B" PyNone] (fresh (new_cache "c" 2 TTL None) 0)))
          <= size (run tclk
            [CallSet "A" (PyInt 1) (Some 1); CallSet "B" (PyInt 2) None;
             CallGet "B" PyNone] (fresh (new_cache "c" 2 TTL None) 0)))
    by (vm_compute; discriminate).
  assert (Hne : _entries (self (run tclk
            [CallSet "A" (PyInt 1) (Some 1); CallSet "B" (PyInt 2) None;
             CallGet "B" PyNone] (fresh (new_cache "c" 2 TTL None) 0))) <> [])
    by (vm_compute; discriminate).
  split; [reflexivity|]. split; [reflexivity|].
  split; [exact Hfull|]. split; [exact Hne|]. split; [reflexivity|].
  destruct (X13_ttl_policy_evicts_as_lru tclk "C" (PyInt 3) None
              (run tclk [CallSet "A" (PyInt 1) (Some 1);
                         CallSet "B" (PyInt 2) None; CallGet "B" PyNone]
                   (fresh (new_cache "c" 2 TTL None) 0))
              eq_refl eq_refl Hfull Hne)
    as (victim & e & Hl & Hmin & Hgone & _).
  exists victim, e. auto.
Defined.

(** *** One entry per key *)

Section KeyFacts.
Variable clk : nat -> Z.
Import PyDict PyDictFacts.

Lemma keys_delitem {V : Type} k (d : PyDict.t V) :
  keys (delitem k d) = filter (fun k' => negb (String.eqb k k')) (keys d).
Proof.
  unfold delitem, keys. induction d as [|[k0 v0] d IH]; cbn; [reflexivity|].
  destruct (String.eqb k k0); cbn; congruence.
Qed.

Lemma keys_setitem_new {V : Type} k (v : V) (d : PyDict.t V) :
  contains k d = false -> keys (setitem k v d) = (keys d ++ [k])%list.
Proof.
  intros H. rewrite (setitem_new _ _ _ H). unfold keys.
  rewrite map_app. reflexivity.
Qed.

Lemma NoDup_snoc (l : list string) (k : string) :
  NoDup l -> ~ In k l -> NoDup (l ++ [k]).
Proof.
  induction l as [|x l IH]; cbn; intros Hnd Hin.
  - constructor; [tauto | constructor].
  - inversion Hnd as [|? ? Hx Hl]; subst. constructor.
    + rewrite in_app_iff. cbn. intros [H | [H | []]]; [tauto|].
      apply Hin. left. symmetry. exact H.
    + apply IH; [exact Hl | tauto].
Qed.

Lemma len_delitem_NoDup {V : Type} k (d : PyDict.t V) :
  NoDup (keys d) -> contains k d = true -> len (delitem k d) = len d - 1.
Proof.
  unfold len, delitem, keys.
  induction d as [|[k0 v0] d IH]; cbn [map filter fst contains List.length];
    [discriminate|].
  intros Hnd. inversion Hnd as [|? ? Hk0 Hd]; subst.
  destruct (String.eqb_spec k k0) as [->|Hne]; cbn [negb List.length].
  - intros _.
    assert (Hid : filter (fun kv : string * V => negb (String.eqb k0 (fst kv))) d = d).
    { clear -Hk0. induction d as [|[k1 v1] d IH]; cbn; [reflexivity|].
      destruct (String.eqb_spec k0 k1) as [->|_]; cbn.
      - exfalso. apply Hk0. left. reflexivity.
      - rewrite IH; [reflexivity|]. intros H. apply Hk0. right. exact H. }
    rewrite Hid. lia.
  - intros Hc. specialize (IH Hd Hc).
    assert (0 < Z.of_nat (List.length d)).
    { destruct d; [discriminate | cbn; lia]. }
    lia.
Qed.

Lemma well_keyed_delitem k d : well_keyed d -> well_keyed (delitem k d).
Proof.
  intros (Hnd & Hk). split.
  - rewrite keys_delitem. apply NoDup_filter, Hnd.
  - intros k' e. rewrite lookup_delitem.
    destruct (String.eqb k' k); [discriminate | apply Hk].
Qed.

Lemma well_keyed_update k f d :
  (forall e, key (f e) = key e) -> well_keyed d -> well_keyed (update k f d).
Proof.
  intros Hf (Hnd & Hk). split.
  - rewrite keys_update. exact Hnd.
  - intros k' e. rewrite lookup_update.
    destruct (String.eqb_spec k' k) as [->|_]; [|apply Hk].
    destruct (lookup k d) as [e0|] eqn:He0; cbn; [|discriminate].
    intros [= <-]. rewrite Hf. apply Hk, He0.
Qed.

Lemma well_keyed_store k v x t1 t2 d :
  well_keyed d -> well_keyed (store k v x t1 t2 d).
Proof.
  intros Hwk. unfold store. destruct (contains k d) eqn:Hc.
  - repeat apply well_keyed_update; auto.
  - destruct Hwk as (Hnd & Hk). split.
    + rewrite (keys_setitem_new _ _ _ Hc). apply NoDup_snoc; [exact Hnd|].
      intros Hin. apply contains_keys in Hin. congruence.
    + intros k' e. rewrite lookup_setitem.
      destruct (String.eqb_spec k' k) as [->|_]; [|apply Hk].
      intros [= <-]. reflexivity.
Qed.

Lemma _evict_well_keyed w :
  well_keyed (_entries (self w)) ->
  well_keyed (_entries (self (snd (_evict clk w)))).
Proof.
  intros Hwk. destruct (_evict clk w) as [r w'] eqn:E.
  destruct (_evict_inv _ _ _ _ E) as (_ & _ & [(_ & H) | (k & _ & H)]);
    cbn [snd]; rewrite H; cbn; [exact Hwk | apply well_keyed_delitem, Hwk].
Qed.

Lemma set_well_keyed k v ttl w :
  well_keyed (_entries (self w)) ->
  well_keyed (_entries (self (snd (set clk k v ttl w)))).
Proof.
  intros Hwk.
  destruct (set_inv clk k v ttl w) as (w1 & w' & r & -> & Hw1 & _ & H).
  cbv zeta in H. cbn [snd].
  assert (Hwk1 : well_keyed (_entries (self w1))).
  { destruct (_ && _); [|subst; exact Hwk].
    pose proof (_evict_well_keyed w Hwk) as He. rewrite Hw1 in He. exact He. }
  destruct H as [(_ & _ & H) | (_ & _ & H)]; rewrite H;
    [cbn; apply well_keyed_store|]; exact Hwk1.
Qed.

Lemma get_well_keyed k dflt w :
  well_keyed (_entries (self w)) ->
  well_keyed (_entries (self (snd (get clk k dflt w)))).
Proof.
  intros Hwk.
  destruct (get_cases clk k dflt w) as (r & w' & -> & _ & H). cbn [snd].
  destruct H as [(_ & _ & ->) | [(e & x & _ & _ & _ & _ & ->)
                                | (e & t & _ & _ & _ & ->)]]; cbn.
  - exact Hwk.
  - apply well_keyed_delitem, Hwk.
  - apply well_keyed_update; auto.
Qed.

Lemma delete_well_keyed k w :
  well_keyed (_entries (self w)) ->
  well_keyed (_entries (self (snd (delete clk k w)))).
Proof.
  intros Hwk. destruct (delete_inv clk k w) as (w' & -> & H). cbn [snd].
  rewrite H. destruct (contains k _); cbn;
    [apply well_keyed_delitem, Hwk | exact Hwk].
Qed.

Lemma perform_well_keyed c w :
  well_keyed (_entries (self w)) ->
  well_keyed (_entries (self (snd (perform clk c w)))).
Proof.
  intros Hwk. destruct c; cbn [perform].
  - unfold forget, bind. pose proof (get_well_keyed k default w Hwk) as H.
    destruct (get clk k default w) as [[r|e] w']; exact H.
  - apply set_well_keyed, Hwk.
  - unfold forget, bind. pose proof (delete_well_keyed k w Hwk) as H.
    destruct (delete clk k w) as [[r|e] w']; exact H.
  - destruct (clear_inv clk w) as (w' & -> & H). cbn [snd]. rewrite H. cbn.
    split; [constructor | discriminate].
  - unfold forget, bind. destruct (get_stats_run w) as (rep & -> & _).
    exact Hwk.
  - unfold forget, __contains__, bind.
    pose proof (get_well_keyed k PyNone w Hwk) as H.
    destruct (get clk k PyNone w) as [[r|e] w']; exact H.
  - unfold forget, __getitem__, bind.
    pose proof (get_well_keyed k PyNone w Hwk) as H.
    destruct (get clk k PyNone w) as [[r|e] w']; [|exact H].
    destruct (is_None r); exact H.
  - apply set_well_keyed, Hwk.
  - unfold __delitem__, bind. pose proof (delete_well_keyed k w Hwk) as H.
    destruct (delete clk k w) as [[[|]|e] w']; exact H.
  - exact Hwk.
Qed.

Lemma run_well_keyed cs w :
  well_keyed (_entries (self w)) ->
  well_keyed (_entries (self (run clk cs w))).
Proof.
  revert w. induction cs as [|c cs IH]; intros w Hwk; cbn [run]; [exact Hwk|].
  apply IH, perform_well_keyed, Hwk.
Qed.

(** [set] of an absent key on a full cache whose keys are distinct *)
Lemma set_overflow_size k v ttl w :
  NoDup (keys (_entries (self w))) ->
  contains k (_entries (self w)) = false ->
  max_size (self w) <= size w -> 0 < size w ->
  size (snd (set clk k v ttl w)) =
  size w - match fst (set clk k v ttl w) with Ok _ => 0 | Raise _ => 1 end.
Proof.
  intros Hnd Hc Hfull Hpos.
  destruct (set_inv clk k v ttl w) as (w1 & w' & r & -> & Hw1 & _ & H).
  cbv zeta in H. cbn [fst snd].
  rewrite Hc in Hw1. cbn [negb] in Hw1. rewrite andb_true_r in Hw1.
  unfold size in *.
  destruct (Z.leb_spec (max_size (self w)) (len (_entries (self w))))
    as [_|Hbad]; [|lia].
  destruct (_evict_inv _ _ _ _ Hw1)
    as (_ & _ & [(Hnil & _) | (victim & Hmin & Hs)]).
  - rewrite Hnil in Hpos. cbn in Hpos. lia.
  - apply py_min_In, contains_keys in Hmin.
    destruct H as [(-> & _ & H) | (-> & _ & H)]; rewrite H, Hs.
    + unfold with_stats, with_entries. cbn [_entries]. rewrite len_store.
      rewrite contains_delitem, Hc.
      destruct (String.eqb k victim);
        rewrite (len_delitem_NoDup _ _ Hnd Hmin); lia.
    + unfold with_stats, with_entries. cbn [_entries].
      apply (len_delitem_NoDup _ _ Hnd Hmin).
Qed.
End KeyFacts.

(** X14: whatever calls are made on a cache fresh from the constructor,
    every entry it holds is stored under the key recorded in the entry, and
    no key is held twice. *)
Theorem X14_entries_are_stored_under_their_key
    (clk : nat -> Z) (nm : string) (ms : Z) (pol : EvictionPolicy)
    (dttl : option Z) (t0 : nat) (cs : list call) :
  let w := run clk cs (fresh (new_cache nm ms pol dttl) t0) in
  __init__ nm ms pol dttl = Ok (new_cache nm ms pol dttl) /\
  NoDup (PyDict.keys (_entries (self w))) /\
  (forall k e, PyDict.lookup k (_entries (self w)) = Some e -> key e = k).
Proof.
  cbv zeta. split; [reflexivity|].
  apply (run_well_keyed clk cs (fresh (new_cache nm ms pol dttl) t0)).
  cbn. split; [constructor | discriminate].
Qed.

(** X15: on a cache that any calls have brought to its capacity, the [set]
    of an absent key evicts exactly one entry, and [evictions] grows by 1.
    When the [set] returns, the key is present and the size after the [set]
    is the size before it.  When it raises [OverflowError], the expiry being
    out of the range of [datetime], the eviction has been made all the same:
    the key is absent and the size is one less. *)
Theorem X15_overflow_evicts_exactly_one
    (clk : nat -> Z) (nm : string) (ms : Z) (pol : EvictionPolicy)
    (dttl : option Z) (t0 : nat) (cs : list call)
    (k : string) (v : pyobj) (ttl : option Z) :
  let w := run clk cs (fresh (new_cache nm ms pol dttl) t0) in
  let w' := snd (set clk k v ttl w) in
  PyDict.contains k (_entries (self w)) = false ->
  max_size (self w) <= size w ->
  0 < size w ->
  evictions (stats w') = evictions (stats w) + 1 /\
  (fst (set clk k v ttl w) = Ok tt \/
   fst (set clk k v ttl w) = Raise OverflowError) /\
  (fst (set clk k v ttl w) = Ok tt ->
   size w' = size w /\ PyDict.contains k (_entries (self w')) = true) /\
  (fst (set clk k v ttl w) = Raise OverflowError ->
   size w' = size w - 1 /\ PyDict.contains k (_entries (self w')) = false).
Proof.
  cbv zeta. intros Hc Hfull Hpos.
  set (w := run clk cs (fresh (new_cache nm ms pol dttl) t0)) in *.
  assert (Hwk : well_keyed (_entries (self w))).
  { apply run_well_keyed. cbn. split; [constructor | discriminate]. }
  pose proof (set_overflow_size clk k v ttl w (proj1 Hwk) Hc Hfull Hpos) as Hsz.
  destruct (set_overflow clk k v ttl w Hc Hfull)
    as (victim & e & _ & _ & Hr & _ & Hin & _ & Hev).
  - intros Hnil. unfold size in Hpos. rewrite Hnil in Hpos. cbn in Hpos. lia.
  - cbv zeta in *. split; [exact Hev|]. split; [exact Hr|].
    split; intros Hres; rewrite Hres in Hsz, Hin; split;
      [lia | exact Hin | exact Hsz | exact Hin].
Qed.

Lemma X15_overflow_evicts_exactly_one_witness :
  let cs := [CallSet "A" (PyInt 1) None; CallSet "B" (PyInt 2) None;
             CallGet "A" PyNone] in
  let w := run tclk cs (fresh (new_cache "c" 2 LRU None) 0) in
  let w' := snd (set tclk "C" (PyInt 3) None w) in
  let w'' := snd (set tclk "C" (PyInt 3) (Some 1000000000000) w) in
  PyDict.contains "C" (_entries (self w)) = false /\
  max_size (self w) <= size w /\
  0 < size w /\
  fst (set tclk "C" (PyInt 3) None w) = Ok tt /\
  size w' = size w /\
  PyDict.contains "C" (_entries (self w')) = true /\
  evictions (stats w') = evictions (stats w) + 1 /\
  fst (set tclk "C" (PyInt 3) (Some 1000000000000) w) = Raise OverflowError /\
  size w'' = size w - 1 /\
  PyDict.contains "C" (_entries (self w'')) = false /\
  evictions (stats w'') = evictions (stats w) + 1.
Proof.
  cbv zeta. split; [reflexivity|].
  split; [vm_compute; discriminate|]. split; [reflexivity|].
  split; [reflexivity|].
  destruct (X15_overflow_evicts_exactly_one tclk "c" 2 LRU None 0
              [CallSet "A" (PyInt 1) None; CallSet "B" (PyInt 2) None;
               CallGet "A" PyNone] "C" (PyInt 3) None)
    as (Hev & _ & Hok & _);
    [reflexivity | vm_compute; discriminate | reflexivity |].
  destruct (X15_overflow_evicts_exactly_one tclk "c" 2 LRU None 0
              [CallSet "A" (PyInt 1) None; CallSet "B" (PyInt 2) None;
               CallGet "A" PyNone] "C" (PyInt 3) (Some 1000000000000))
    as (Hev' & _ & _ & Hraise);
    [reflexivity | vm_compute; discriminate | reflexivity |].
  destruct (Hok eq_refl) as (H1 & H2).
  destruct (Hraise eq_refl) as (H3 & H4).
  repeat split; assumption.
Defined.

(** *** The cache builders of the factory *)

Section FactoryFacts.
Variable clk : nat -> Z.

Lemma run_same_config cs w : same_config (self w) (self (run clk cs w)).
Proof.
  revert w. induction cs as [|c cs IH]; intros w; cbn [run].
  - repeat split.
  - destruct (perform_effect clk c w) as ((H1 & H2 & H3 & H4) & _).
    destruct (IH (snd (perform clk c w))) as (I1 & I2 & I3 & I4).
    repeat split; congruence.
Qed.
End FactoryFacts.

(** X16: in a cache from [create_ttl_cache(name, d)], after any calls, an
    entry set without a TTL of its own lives [d] seconds.  Under a clock
    that never goes back: with [d = 0] the [set] returns, the entry never
    expires and every later [get] returns the value; with [d] not 0, when
    the [set] returned (the expiry was in the range of [datetime]), a [get]
    made when the clock reads more than [d] seconds after the end of the
    [set] returns the default and removes the entry. *)
Theorem X16_ttl_cache_applies_its_default_ttl
    (clk : nat -> Z) (nm : string) (d : Z) (c : Cache) (t0 : nat)
    (cs : list call) (k : string) (v dflt : pyobj) (m : nat) :
  create_ttl_cache nm d = Ok c ->
  monotone clk ->
  let w := run clk cs (fresh c t0) in
  let w' := snd (set clk k v None w) in
  let w1 := later w' m in
  max_size (self w) = 1000 /\ policy (self w) = TTL /\
  (d = 0 ->
     fst (set clk k v None w) = Ok tt /\ fst (get clk k dflt w1) = Ok v) /\
  (d <> 0 -> fst (set clk k v None w) = Ok tt ->
     clk (ticks w') + microseconds d < clk (ticks w1) ->
     fst (get clk k dflt w1) = Ok dflt /\
     PyDict.contains k (_entries (self (snd (get clk k dflt w1)))) = false).
Proof.
  intros Hc Hmono. change (Ok (new_cache nm 1000 TTL (Some d)) = Ok c) in Hc.
  injection Hc as <-. cbv zeta.
  set (w := run clk cs (fresh (new_cache nm 1000 TTL (Some d)) t0)).
  destruct (run_same_config clk cs (fresh (new_cache nm 1000 TTL (Some d)) t0))
    as (_ & Hms & Hpol & Httl).
  fold w in Hms, Hpol, Httl. cbn in Hms, Hpol, Httl.
  split; [exact Hms|]. split; [exact Hpol|]. split.
  - intros ->.
    assert (Hok : fst (set clk k v None w) = Ok tt)
      by (apply set_ok_no_ttl; rewrite Httl; reflexivity).
    split; [exact Hok|].
    destruct (set_entry clk k v None w Hok) as (n & e & _ & He & Hv & Hx).
    cbv zeta in *. rewrite Httl in Hx. cbn in Hx.
    destruct (get_when_live clk k dflt (later (snd (set clk k v None w)) m) e He)
      as (Hr & _).
    + intros x Hex. congruence.
    + rewrite Hr, Hv. reflexivity.
  - intros Hnz Hok Hlate.
    destruct (set_then_get_expired clk k v dflt None w m d Hmono)
      as (Hr & _ & Hgone).
    + rewrite Httl. unfold py_or, truthy.
      destruct (Z.eqb_spec d 0); [contradiction | reflexivity].
    + exact Hnz.
    + exact Hok.
    + intros i Hi. pose proof (Hmono i _ Hi). lia.
    + auto.
Qed.

Lemma X16_ttl_cache_applies_its_default_ttl_witness :
  let c := new_cache "sessions" 1000 TTL (Some 300) in
  let w := run tclk [CallSet "a" (PyInt 1) None] (fresh c 0) in
  let w' := snd (set tclk "k" (PyInt 7) None w) in
  let w1 := later w' 400 in
  create_ttl_cache "sessions" 300 = Ok c /\
  monotone tclk /\
  300 <> 0 /\
  fst (set tclk "k" (PyInt 7) None w) = Ok tt /\
  tclk (ticks w') + microseconds 300 < tclk (ticks w1) /\
  fst (get tclk "k" PyNone w1) = Ok PyNone /\
  PyDict.contains "k" (_entries (self (snd (get tclk "k" PyNone w1)))) = false.
Proof.
  cbv zeta.
  assert (Hmono : monotone tclk) by (intros i j Hij; unfold tclk; lia).
  split; [reflexivity|]. split; [exact Hmono|]. split; [discriminate|].
  split; [reflexivity|]. split; [reflexivity|].
  destruct (X16_ttl_cache_applies_its_default_ttl tclk "sessions" 300
              (new_cache "sessions" 1000 TTL (Some 300)) 0
              [CallSet "a" (PyInt 1) None] "k" (PyInt 7) PyNone 400
              eq_refl Hmono) as (_ & _ & _ & H).
  apply H; [discriminate | reflexivity | reflexivity].
Defined.

(** *** The level filter of the logger *)



(** ** The caches that [Cache] replaces *)

Section MoreDictFacts.
Import PyDict PyDictFacts.

Lemma contains_by_keys {U : Type} k (d : PyDict.t U) :
  contains k d = existsb (String.eqb k) (keys d).
Proof.
  induction d as [|[k0 v0] d IH]; cbn; [reflexivity|].
  rewrite IH. destruct (String.eqb k k0); reflexivity.
Qed.

Lemma keys_setitem {U : Type} k (v : U) (d : PyDict.t U) :
  keys (setitem k v d) = if contains k d then keys d else (keys d ++ [k])%list.
Proof.
  unfold keys. induction d as [|[k0 v0] d IH]; cbn; [reflexivity|].
  destruct (String.eqb k k0); cbn; [reflexivity|].
  rewrite IH. destruct (contains k d); reflexivity.
Qed.

Lemma len_setitem {U : Type} k (v : U) (d : PyDict.t U) :
  len (setitem k v d) = if contains k d then len d else len d + 1.
Proof.
  unfold len. rewrite <- !(length_map fst). fold (keys (setitem k v d)).
  fold (keys d). rewrite keys_setitem.
  destruct (contains k d); [reflexivity|].
  rewrite length_app. cbn. lia.
Qed.

Context {V W : Type}.

Lemma contains_same_keys k (d : PyDict.t V) (d' : PyDict.t W) :
  keys d = keys d' -> contains k d = contains k d'.
Proof.
  intros H. rewrite (contains_by_keys k d), (contains_by_keys k d'), H.
  reflexivity.
Qed.

Lemma keys_delitem_same k (d : PyDict.t V) (d' : PyDict.t W) :
  keys d = keys d' -> keys (delitem k d) = keys (delitem k d').
Proof.
  intros H. unfold delitem, keys.
  revert d' H. induction d as [|[k0 v0] d IH]; intros [|[k1 v1] d'] H;
    cbn in *; try discriminate; [reflexivity|].
  injection H as -> H. destruct (String.eqb k k1); cbn; [|f_equal]; apply IH, H.
Qed.

Lemma keys_setitem_same k (v : V) (v' : W) (d : PyDict.t V) (d' : PyDict.t W) :
  keys d = keys d' -> keys (setitem k v d) = keys (setitem k v' d').
Proof.
  intros H. rewrite !keys_setitem, (contains_same_keys k d d' H), H.
  reflexivity.
Qed.

Lemma len_same_keys (d : PyDict.t V) (d' : PyDict.t W) :
  keys d = keys d' -> len d = len d'.
Proof.
  intros H. unfold len. rewrite <- (length_map fst d), <- (length_map fst d').
  fold (keys d). fold (keys d'). rewrite H. reflexivity.
Qed.
End MoreDictFacts.

Module WebAPICacheFacts.
Import PyDict PyDictFacts WebAPICache.

Lemma get_within ms now key s :
  within ms s ->
  (exists r, fst (get now key s) = Ok r) /\ within ms (snd (get now key s)).
Proof.
  intros (Hm & Hk & Hl). unfold get.
  destruct (contains key (cache s)) eqn:Hc; cbn [fst snd];
    [|split; [eauto | repeat split; auto]].
  destruct (contains_true_lookup _ _ Hc) as [v Hv].
  unfold getitem. cbn [cache]. rewrite Hv. split; [eauto|].
  unfold within. cbn [cache max_size access_times].
  rewrite keys_setitem, <- (contains_same_keys key _ _ Hk), Hc. auto.
Qed.

Lemma set_within ms now key value ttl s :
  1 <= ms -> within ms s ->
  fst (set now key value ttl s) = Ok tt /\
  within ms (snd (set now key value ttl s)).
Proof.
  intros Hms (Hm & Hk & Hl). unfold set, within. rewrite Hm.
  destruct (Z.leb_spec ms (len (cache s))) as [Hfull|Hroom].
  - assert (Hne : keys (access_times s) <> []).
    { rewrite <- Hk. unfold len in Hfull. destruct (cache s); cbn in *; [lia|].
      discriminate. }
    destruct (py_min_nonempty (time_of (access_times s)) _ Hne) as [oldest Hmin].
    rewrite Hmin.
    pose proof (py_min_In _ _ _ Hmin) as Hin.
    rewrite <- Hk in Hin. apply contains_keys in Hin. rewrite Hin.
    cbn [fst snd cache max_size access_times].
    split; [reflexivity|]. split; [reflexivity|]. split.
    + apply keys_setitem_same, keys_delitem_same, Hk.
    + rewrite len_setitem. pose proof (len_delitem_lt _ _ Hin).
      destruct (contains key _); lia.
  - cbn [fst snd cache max_size access_times].
    split; [reflexivity|]. split; [reflexivity|]. split.
    + apply keys_setitem_same, Hk.
    + rewrite len_setitem. destruct (contains key _); lia.
Qed.

Lemma perform_within ms c s :
  1 <= ms -> within ms s ->
  fst (perform c s) = false /\ within ms (snd (perform c s)).
Proof.
  intros Hms Hw. destruct c as [now key | now key value ttl |];
    cbn [perform fst snd].
  - destruct (get_within ms now key s Hw) as ((r & ->) & H). auto.
  - destruct (set_within ms now key value ttl s Hms Hw) as (-> & H). auto.
  - split; [reflexivity|]. destruct Hw as (Hm & _).
    unfold within, clear. cbn [cache max_size access_times].
    split; [exact Hm|]. split; [reflexivity|]. cbn. lia.
Qed.

Lemma run_within ms cs s :
  1 <= ms -> within ms s ->
  raised cs s = false /\ within ms (run cs s).
Proof.
  intros Hms. revert s. induction cs as [|c cs IH]; intros s Hw;
    cbn [raised run].
  - auto.
  - destruct (perform_within ms c s Hms Hw) as (-> & Hw').
    apply IH, Hw'.
Qed.
End WebAPICacheFacts.

(** X18: a [WebAPICache] built with [max_size >= 1] never raises and never
    holds more than [max_size] entries, whatever [get], [set] and [clear]
    calls are made at whatever times; its dict of values and its dict of
    access times always hold the same keys. *)
Theorem X18_web_api_cache_stays_within_capacity
    (ms : Z) (cs : list WebAPICache.call) :
  1 <= ms ->
  let s := WebAPICache.run cs (WebAPICache.__init__ ms) in
  WebAPICache.raised cs (WebAPICache.__init__ ms) = false /\
  PyDict.len (WebAPICache.cache s) <= ms /\
  PyDict.keys (WebAPICache.cache s) = PyDict.keys (WebAPICache.access_times s).
Proof.
  intros Hms. cbv zeta.
  destruct (WebAPICacheFacts.run_within ms cs (WebAPICache.__init__ ms) Hms)
    as (Hr & _ & Hk & Hl).
  - repeat split; cbn; lia.
  - auto.
Qed.

Lemma X18_web_api_cache_stays_within_capacity_witness :
  let cs := [WebAPICache.CSet 10 "a" (PyInt 1) 300;
             WebAPICache.CSet 20 "b" (PyInt 2) 300;
             WebAPICache.CGet 30 "a";
             WebAPICache.CSet 40 "c" (PyInt 3) 300] in
  let s := WebAPICache.run cs (WebAPICache.__init__ 2) in
  1 <= 2 /\
  WebAPICache.raised cs (WebAPICache.__init__ 2) = false /\
  PyDict.len (WebAPICache.cache s) <= 2 /\
  PyDict.keys (WebAPICache.cache s) = PyDict.keys (WebAPICache.access_times s).
Proof.
  cbv zeta. split; [lia|].
  apply (X18_web_api_cache_stays_within_capacity 2
           [WebAPICache.CSet 10 "a" (PyInt 1) 300;
            WebAPICache.CSet 20 "b" (PyInt 2) 300;
            WebAPICache.CGet 30 "a";
            WebAPICache.CSet 40 "c" (PyInt 3) 300]).
  lia.
Defined.

(** X19: a [WebAPICache] built with [max_size <= 0] can store nothing: every
    [set] raises [ValueError], from [min] over no keys, and whatever calls
    are made the cache stays empty. *)
Theorem X19_web_api_cache_without_capacity_raises
    (ms : Z) (cs : list WebAPICache.call)
    (now : Z) (key : string) (value : pyobj) (ttl : Z) :
  ms <= 0 ->
  let s := WebAPICache.run cs (WebAPICache.__init__ ms) in
  s = WebAPICache.__init__ ms /\
  WebAPICache.set now key value ttl s =
    (Raise (ValueError "min() arg is an empty sequence"), s).
Proof.
  intros Hms. cbv zeta.
  assert (Hset : forall n k v t,
    WebAPICache.set n k v t (WebAPICache.__init__ ms) =
    (Raise (ValueError "min() arg is an empty sequence"),
     WebAPICache.__init__ ms)).
  { intros n k v t. unfold WebAPICache.set. cbn.
    destruct (Z.leb_spec ms 0); [reflexivity | lia]. }
  assert (Hrun : WebAPICache.run cs (WebAPICache.__init__ ms) =
                 WebAPICache.__init__ ms).
  { induction cs as [|c cs IH]; cbn; [reflexivity|].
    destruct c as [n k | n k v t |]; cbn; [exact IH | | exact IH].
    rewrite Hset. exact IH. }
  rewrite Hrun. split; [reflexivity | apply Hset].
Qed.

Lemma X19_web_api_cache_without_capacity_raises_witness :
  let s := WebAPICache.run [WebAPICache.CSet 10 "a" (PyInt 1) 300;
                            WebAPICache.CGet 20 "a"]
             (WebAPICache.__init__ 0) in
  0 <= 0 /\
  s = WebAPICache.__init__ 0 /\
  WebAPICache.set 30 "b" (PyInt 2) 300 s =
    (Raise (ValueError "min() arg is an empty sequence"), s).
Proof.
  cbv zeta. split; [lia|].
  apply (X19_web_api_cache_without_capacity_raises 0
           [WebAPICache.CSet 10 "a" (PyInt 1) 300; WebAPICache.CGet 20 "a"]
           30 "b" (PyInt 2) 300).
  lia.
Defined.

(** X20: in a [WebAPICache] at capacity, [set] evicts even when the key is
    already present.  The key whose access time is oldest is removed first;
    unless that key is the one being set, it is lost and the cache ends one
    entry smaller, with the new value under the key. *)
Theorem X20_web_api_cache_update_at_capacity_evicts
    (now : Z) (key : string) (value old : pyobj) (ttl : Z) (s : WebAPICache.t) :
  PyDict.keys (WebAPICache.cache s) = PyDict.keys (WebAPICache.access_times s) ->
  WebAPICache.max_size s <= PyDict.len (WebAPICache.cache s) ->
  PyDict.lookup key (WebAPICache.cache s) = Some old ->
  exists oldest t,
    PyDict.lookup oldest (WebAPICache.access_times s) = Some t /\
    (forall k' t', PyDict.lookup k' (WebAPICache.access_times s) = Some t' ->
       t <= t') /\
    let s' := snd (WebAPICache.set now key value ttl s) in
    fst (WebAPICache.set now key value ttl s) = Ok tt /\
    PyDict.lookup key (WebAPICache.cache s') = Some value /\
    (oldest <> key ->
       PyDict.contains oldest (WebAPICache.cache s') = false /\
       PyDict.len (WebAPICache.cache s') < PyDict.len (WebAPICache.cache s)).
Proof.
  intros Hk Hfull Hold.
  pose proof (PyDictFacts.lookup_contains _ _ _ Hold) as Hc.
  assert (Hne : PyDict.keys (WebAPICache.access_times s) <> []).
  { rewrite <- Hk. destruct (WebAPICache.cache s); [discriminate|].
    cbn. discriminate. }
  destruct (py_min_nonempty (time_of (WebAPICache.access_times s)) _ Hne)
    as [oldest Hmin].
  pose proof (py_min_In _ _ _ Hmin) as Hin.
  pose proof Hin as Hin'. apply PyDictFacts.contains_keys in Hin'.
  destruct (PyDictFacts.contains_true_lookup _ _ Hin') as [t Ht].
  rewrite <- Hk in Hin. apply PyDictFacts.contains_keys in Hin.
  exists oldest, t. split; [exact Ht|]. split.
  - intros k' t' Ht'.
    pose proof (py_min_le _ _ _ k' Hmin) as Hle.
    unfold time_of in Hle. rewrite Ht, Ht' in Hle.
    apply Hle, PyDictFacts.contains_keys, (PyDictFacts.lookup_contains _ _ _ Ht').
  - cbv zeta. unfold WebAPICache.set.
    destruct (Z.leb_spec (WebAPICache.max_size s)
                (PyDict.len (WebAPICache.cache s))) as [_|Hbad]; [|lia].
    rewrite Hmin, Hin. cbn [fst snd WebAPICache.cache].
    split; [reflexivity|]. split.
    + rewrite PyDictFacts.lookup_setitem, String.eqb_refl. reflexivity.
    + intros Hne'. apply String.eqb_neq in Hne'.
      rewrite PyDictFacts.contains_setitem, Hne',
              PyDictFacts.contains_delitem, String.eqb_refl.
      split; [reflexivity|].
      rewrite len_setitem, PyDictFacts.contains_delitem.
      rewrite String.eqb_sym in Hne'. rewrite Hne', Hc.
      apply PyDictFacts.len_delitem_lt, Hin.
Qed.

Lemma X20_web_api_cache_update_at_capacity_evicts_witness :
  let s := WebAPICache.run [WebAPICache.CSet 10 "a" (PyInt 1) 300;
                            WebAPICache.CSet 20 "b" (PyInt 2) 300]
             (WebAPICache.__init__ 2) in
  let s' := snd (WebAPICache.set 30 "b" (PyInt 9) 300 s) in
  PyDict.keys (WebAPICache.cache s) = PyDict.keys (WebAPICache.access_times s) /\
  WebAPICache.max_size s <= PyDict.len (WebAPICache.cache s) /\
  PyDict.lookup "b" (WebAPICache.cache s) = Some (PyInt 2) /\
  PyDict.keys (WebAPICache.cache s') = ["b"] /\
  exists oldest t,
    PyDict.lookup oldest (WebAPICache.access_times s) = Some t /\
    fst (WebAPICache.set 30 "b" (PyInt 9) 300 s) = Ok tt /\
    PyDict.lookup "b" (WebAPICache.cache s') = Some (PyInt 9).
Proof.
  cbv zeta. split; [reflexivity|]. split; [vm_compute; discriminate|].
  split; [reflexivity|]. split; [reflexivity|].
  destruct (X20_web_api_cache_update_at_capacity_evicts 30 "b" (PyInt 9)
              (PyInt 2) 300
              (WebAPICache.run [WebAPICache.CSet 10 "a" (PyInt 1) 300;
                                WebAPICache.CSet 20 "b" (PyInt 2) 300]
                 (WebAPICache.__init__ 2)))
    as (oldest & t & Ht & _ & Hok & Hv & _);
    [reflexivity | vm_compute; discriminate | reflexivity |].
  exists oldest, t. auto.
Defined.

Module JobProcessorCacheFacts.
Import PyDict PyDictFacts JobProcessorCache.



(** [store] writes the value, then either records the expiry and returns,
    or raises [OverflowError] and records none *)
Lemma store_inv dmin now key value ttl s :
  (store dmin now key value ttl s =
     (Ok tt, mk (setitem key value (cache s))
                (setitem key (now + microseconds (60 * ttl)) (expiries s)))) \/
  (store dmin now key value ttl s =
     (Raise OverflowError, mk (setitem key value (cache s)) (expiries s))).
Proof.
  unfold store, timedelta_minutes, timedelta, add_from.
  destruct ((-999999999 <=? 60 * ttl / 86400) && (60 * ttl / 86400 <=? 999999999));
    [|right; reflexivity].
  destruct ((dmin <=? now + microseconds (60 * ttl))
            && (now + microseconds (60 * ttl) <=? dmin + datetime_span));
    [left | right]; reflexivity.
Qed.

Lemma store_cache dmin now key value ttl s :
  cache (snd (store dmin now key value ttl s)) = setitem key value (cache s).
Proof.
  destruct (store_inv dmin now key value ttl s) as [-> | ->]; reflexivity.
Qed.



Lemma run_stores_len dmin (args : list (Z * string * pyobj * Z)) s :
  NoDup (map (fun a => snd (fst (fst a))) args) ->
  (forall a, In a args -> contains (snd (fst (fst a))) (cache s) = false) ->
  len (cache (run dmin
         (map (fun a => CStore (fst (fst (fst a))) (snd (fst (fst a)))
                               (snd (fst a)) (snd a)) args) s)) =
  len (cache s) + Z.of_nat (List.length args).
Proof.
  revert s. induction args as [|[[[now key] value] ttl] args IH]; intros s Hnd Hnew.
  - cbn. lia.
  - cbn [map run perform fst snd List.length] in *.
    inversion Hnd as [|? ? Hnotin Hnd']; subst.
    rewrite IH; [| exact Hnd' |].
    + rewrite store_cache, len_setitem.
      pose proof (Hnew (now, key, value, ttl) (or_introl eq_refl)) as Hk.
      cbn [fst snd] in Hk. rewrite Hk. lia.
    + intros [[[n1 k1] v1] t1] Hin. cbn [fst snd].
      rewrite store_cache, contains_setitem.
      destruct (String.eqb_spec k1 key) as [->|_].
      * exfalso. apply Hnotin.
        apply (in_map (fun a : Z * string * pyobj * Z => snd (fst (fst a))) _ _ Hin).
      * apply (Hnew (n1, k1, v1, t1)). right. exact Hin.
Qed.
End JobProcessorCacheFacts.



(** X22: what a [store] that returns has put in a [JobProcessorCache] is what
    [fetch] returns while the clock reads before the time of the [store]
    plus the TTL in minutes.  From that instant on, the instant itself
    included, [fetch] returns [None] and removes the key from both dicts. *)
Theorem X22_job_cache_store_then_fetch
    (datetime_min now now' : Z) (key : string) (value : pyobj)
    (ttl_minutes : Z) (s : JobProcessorCache.t) :
  fst (JobProcessorCache.store datetime_min now key value ttl_minutes s)
    = Ok tt ->
  let s1 := snd (JobProcessorCache.store datetime_min now key value
                   ttl_minutes s) in
  let deadline := now + ttl_minutes * 60000000 in
  (now' < deadline ->
     JobProcessorCache.fetch datetime_min now' key s1 = (Ok value, s1)) /\
  (deadline <= now' ->
     let s2 := snd (JobProcessorCache.fetch datetime_min now' key s1) in
     fst (JobProcessorCache.fetch datetime_min now' key s1) = Ok PyNone /\
     PyDict.contains key (JobProcessorCache.cache s2) = false /\
     PyDict.contains key (JobProcessorCache.expiries s2) = false).
Proof.
  intros Hok. cbv zeta.
  destruct (JobProcessorCacheFacts.store_inv datetime_min now key value
              ttl_minutes s) as [E | E];
    rewrite E in *; cbn [fst snd] in *; [|discriminate].
  unfold JobProcessorCache.fetch, getitem.
  cbn [JobProcessorCache.cache JobProcessorCache.expiries].
  rewrite PyDictFacts.contains_setitem, !PyDictFacts.lookup_setitem,
          String.eqb_refl.
  unfold microseconds. split; intros H.
  - destruct (Z.ltb_spec now' (now + 60 * ttl_minutes * 1000000)); [|lia].
    reflexivity.
  - destruct (Z.ltb_spec now' (now + 60 * ttl_minutes * 1000000)); [lia|].
    rewrite PyDictFacts.contains_setitem, String.eqb_refl.
    cbn [fst snd JobProcessorCache.cache JobProcessorCache.expiries].
    rewrite !PyDictFacts.contains_delitem, String.eqb_refl. auto.
Qed.

Lemma X22_job_cache_store_then_fetch_witness :
  let s1 := snd (JobProcessorCache.store 0 0 "job:1" (PyStr "done") 10
                   JobProcessorCache.__init__) in
  fst (JobProcessorCache.store 0 0 "job:1" (PyStr "done") 10
         JobProcessorCache.__init__) = Ok tt /\
  599999999 < 0 + 10 * 60000000 /\
  0 + 10 * 60000000 <= 600000000 /\
  JobProcessorCache.fetch 0 599999999 "job:1" s1 = (Ok (PyStr "done"), s1) /\
  fst (JobProcessorCache.fetch 0 600000000 "job:1" s1) = Ok PyNone.
Proof.
  cbv zeta. split; [reflexivity|]. split; [lia|]. split; [lia|].
  destruct (X22_job_cache_store_then_fetch 0 0 599999999 "job:1" (PyStr "done")
              10 JobProcessorCache.__init__ eq_refl) as (H1 & _).
  destruct (X22_job_cache_store_then_fetch 0 0 600000000 "job:1" (PyStr "done")
              10 JobProcessorCache.__init__ eq_refl) as (_ & H2).
  split; [apply H1; lia|]. apply H2. lia.
Defined.

(** X23: a [JobProcessorCache] has no size limit: storing [n] distinct keys
    in a new cache leaves it holding [n] entries, for every [n]. *)
Theorem X23_job_cache_is_unbounded
    (datetime_min : Z) (args : list (Z * string * pyobj * Z)) :
  NoDup (map (fun a => snd (fst (fst a))) args) ->
  let stores := map (fun a => JobProcessorCache.CStore
                                (fst (fst (fst a))) (snd (fst (fst a)))
                                (snd (fst a)) (snd a)) args in
  PyDict.len (JobProcessorCache.cache
                (JobProcessorCache.run datetime_min stores
                   JobProcessorCache.__init__))
  = Z.of_nat (List.length args).
Proof.
  intros Hnd. cbv zeta.
  rewrite (JobProcessorCacheFacts.run_stores_len datetime_min args
             JobProcessorCache.__init__ Hnd); [reflexivity|].
  intros a _. reflexivity.
Qed.

Lemma X23_job_cache_is_unbounded_witness :
  let args := [(0, "a", PyInt 1, 10); (5, "b", PyInt 2, 10);
               (9, "c", PyInt 3, 1)] in
  NoDup (map (fun a : Z * string * pyobj * Z => snd (fst (fst a))) args) /\
  PyDict.len (JobProcessorCache.cache
                (JobProcessorCache.run 0
                   (map (fun a => JobProcessorCache.CStore
                                    (fst (fst (fst a))) (snd (fst (fst a)))
                                    (snd (fst a)) (snd a)) args)
                   JobProcessorCache.__init__))
  = 3.
Proof.
  cbv zeta.
  assert (Hnd : NoDup (map (fun a : Z * string * pyobj * Z => snd (fst (fst a)))
                 [(0, "a", PyInt 1, 10); (5, "b", PyInt 2, 10);
                  (9, "c", PyInt 3, 1)])).
  { cbn. repeat constructor; cbn; intuition discriminate. }
  split; [exact Hnd|].
  apply (X23_job_cache_is_unbounded 0
           [(0, "a", PyInt 1, 10); (5, "b", PyInt 2, 10); (9, "c", PyInt 3, 1)]
           Hnd).
Defined.

Module PipelineCacheFacts.
Import PyDict PyDictFacts PipelineCache.

(** without a TTL, [set_key] writes the value and returns *)
Lemma set_key_no_ttl now key value ttl s :
  truthy ttl = false ->
  set_key now key value ttl s = (Ok tt, mk (setitem key value (data s)) (ttls s)).
Proof. unfold set_key. intros ->. reflexivity. Qed.

(** with a TTL, [set_key] writes the value, then either records the expiry
    and returns, or raises [OverflowError] and records none *)
Lemma set_key_ttl now key value n s :
  n <> 0 ->
  (set_key now key value (Some n) s =
     (Ok tt, mk (setitem key value (data s))
                (setitem key (now + microseconds n) (ttls s)))) \/
  (set_key now key value (Some n) s =
     (Raise OverflowError, mk (setitem key value (data s)) (ttls s))).
Proof.
  intros Hn. unfold set_key, truthy, timedelta, datetime_add, add_from.
  destruct (Z.eqb_spec n 0) as [|_]; [contradiction|]. cbn [negb].
  destruct ((-999999999 <=? n / 86400) && (n / 86400 <=? 999999999));
    [|right; reflexivity].
  destruct ((datetime_min <=? now + microseconds n)
            && (now + microseconds n <=? datetime_min + datetime_span));
    [left | right]; reflexivity.
Qed.
End PipelineCacheFacts.

(** X24: in a [PipelineCache], [set_key] without a TTL does not clear the
    TTL that an earlier [set_key] left under the key.  After a value is set
    with a TTL of [n] seconds, by a [set_key] that returned, and then
    overwritten with no TTL, the new value is returned only while the clock
    reads before the old deadline; from the deadline on [get_key] returns
    [None] and deletes the key. *)
Theorem X24_pipeline_cache_keeps_a_stale_ttl
    (now1 now2 now3 n : Z) (key : string) (v1 v2 : pyobj)
    (s : PipelineCache.t) :
  n <> 0 ->
  fst (PipelineCache.set_key now1 key v1 (Some n) s) = Ok tt ->
  let s1 := snd (PipelineCache.set_key now1 key v1 (Some n) s) in
  let s2 := snd (PipelineCache.set_key now2 key v2 None s1) in
  let deadline := now1 + n * 1000000 in
  fst (PipelineCache.set_key now2 key v2 None s1) = Ok tt /\
  (now3 < deadline -> PipelineCache.get_key now3 key s2 = (Ok v2, s2)) /\
  (deadline <= now3 ->
     let s3 := snd (PipelineCache.get_key now3 key s2) in
     fst (PipelineCache.get_key now3 key s2) = Ok PyNone /\
     PyDict.contains key (PipelineCache.data s3) = false /\
     PyDict.contains key (PipelineCache.ttls s3) = false).
Proof.
  intros Hn Hok. cbv zeta.
  destruct (PipelineCacheFacts.set_key_ttl now1 key v1 n s Hn) as [E | E];
    rewrite E in *; cbn [fst snd] in *; [|discriminate].
  rewrite PipelineCacheFacts.set_key_no_ttl by reflexivity.
  cbn [fst snd]. split; [reflexivity|].
  unfold PipelineCache.get_key, getitem.
  cbn [PipelineCache.data PipelineCache.ttls].
  rewrite !PyDictFacts.contains_setitem, !PyDictFacts.lookup_setitem,
          String.eqb_refl.
  unfold microseconds. split; intros H.
  - destruct (Z.ltb_spec now3 (now1 + n * 1000000)); [reflexivity | lia].
  - destruct (Z.ltb_spec now3 (now1 + n * 1000000)); [lia|].
    cbn [fst snd PipelineCache.data PipelineCache.ttls].
    rewrite !PyDictFacts.contains_delitem, String.eqb_refl. auto.
Qed.

Lemma X24_pipeline_cache_keeps_a_stale_ttl_witness :
  let s1 := snd (PipelineCache.set_key 0 "k" (PyInt 1) (Some 5)
                   PipelineCache.__init__) in
  let s2 := snd (PipelineCache.set_key 1000000 "k" (PyInt 2) None s1) in
  5 <> 0 /\
  fst (PipelineCache.set_key 0 "k" (PyInt 1) (Some 5) PipelineCache.__init__)
    = Ok tt /\
  4000000 < 0 + 5 * 1000000 /\
  0 + 5 * 1000000 <= 6000000 /\
  PipelineCache.get_key 4000000 "k" s2 = (Ok (PyInt 2), s2) /\
  fst (PipelineCache.get_key 6000000 "k" s2) = Ok PyNone.
Proof.
  cbv zeta. split; [discriminate|]. split; [reflexivity|].
  split; [lia|]. split; [lia|].
  destruct (X24_pipeline_cache_keeps_a_stale_ttl 0 1000000 4000000 5 "k"
              (PyInt 1) (PyInt 2) PipelineCache.__init__) as (_ & H1 & _);
    [discriminate | reflexivity |].
  destruct (X24_pipeline_cache_keeps_a_stale_ttl 0 1000000 6000000 5 "k"
              (PyInt 1) (PyInt 2) PipelineCache.__init__) as (_ & _ & H2);
    [discriminate | reflexivity |].
  split; [apply H1; lia|]. apply H2. lia.
Defined.

(** X25: [delete_key] removes the value and the TTL of a key, so a value set
    without a TTL after a [delete_key] never expires: [get_key] returns it
    at every later time and leaves the cache as it is. *)
Theorem X25_pipeline_cache_delete_clears_the_ttl
    (now now' : Z) (key : string) (v : pyobj) (s : PipelineCache.t) :
  let s1 := PipelineCache.delete_key key s in
  let s2 := snd (PipelineCache.set_key now key v None s1) in
  PyDict.contains key (PipelineCache.data s1) = false /\
  PyDict.contains key (PipelineCache.ttls s1) = false /\
  fst (PipelineCache.get_key now' key s1) = Ok PyNone /\
  fst (PipelineCache.set_key now key v None s1) = Ok tt /\
  PipelineCache.get_key now' key s2 = (Ok v, s2).
Proof.
  cbv zeta.
  assert (Hd : PyDict.contains key
                 (PipelineCache.data (PipelineCache.delete_key key s)) = false).
  { unfold PipelineCache.delete_key. cbn [PipelineCache.data].
    destruct (PyDict.contains key (PipelineCache.data s)) eqn:Hc; [|exact Hc].
    rewrite PyDictFacts.contains_delitem, String.eqb_refl. reflexivity. }
  assert (Ht : PyDict.contains key
                 (PipelineCache.ttls (PipelineCache.delete_key key s)) = false).
  { unfold PipelineCache.delete_key. cbn [PipelineCache.ttls].
    destruct (PyDict.contains key (PipelineCache.ttls s)) eqn:Hc; [|exact Hc].
    rewrite PyDictFacts.contains_delitem, String.eqb_refl. reflexivity. }
  split; [exact Hd|]. split; [exact Ht|]. split; [|split].
  - unfold PipelineCache.get_key. rewrite Hd. reflexivity.
  - reflexivity.
  - rewrite PipelineCacheFacts.set_key_no_ttl by reflexivity. cbn [snd].
    unfold PipelineCache.get_key, getitem.
    cbn [PipelineCache.data PipelineCache.ttls].
    rewrite PyDictFacts.contains_setitem, PyDictFacts.lookup_setitem,
            String.eqb_refl, Ht. reflexivity.
Qed.

(** ** Indexing and statistics of [Cache] *)

(** X26: on a cache without a default TTL, [cache[k] = v] followed at any
    later time by [cache[k]] returns [v], and [k in cache] is [True],
    provided [v] is not [None]. *)
Theorem X26_setitem_then_getitem
    (clk : nat -> Z) (k : string) (v : pyobj) (w : World) (m : nat) :
  truthy (default_ttl (self w)) = false ->
  is_None v = false ->
  let w1 := later (snd (__setitem__ clk k v w)) m in
  fst (__getitem__ clk k w1) = Ok v /\
  fst (__contains__ clk k w1) = Ok true.
Proof.
  intros Hnone Hv. cbv zeta. unfold __setitem__.
  assert (Hok : fst (set clk k v None w) = Ok tt)
    by (apply set_ok_no_ttl; exact Hnone).
  destruct (set_entry clk k v None w Hok) as (n & e & _ & He & Hval & Hx).
  cbv zeta in *.
  assert (Hexp : expires e = None).
  { rewrite Hx. unfold expiry, py_or. cbn. unfold truthy in Hnone.
    destruct (default_ttl (self w)) as [d|]; [|reflexivity].
    destruct (d =? 0); [reflexivity | discriminate]. }
  destruct (get_when_live clk k PyNone (later (snd (set clk k v None w)) m) e He)
    as (Hr & _).
  { intros x Hex. congruence. }
  rewrite Hval in Hr.
  unfold __getitem__, __contains__, bind.
  destruct (get clk k PyNone (later (snd (set clk k v None w)) m)) as [r w'].
  cbn in Hr. subst r. rewrite Hv. cbn. auto.
Qed.

Lemma X26_setitem_then_getitem_witness :
  let w := fresh (new_cache "c" 100 LRU None) 0 in
  let w1 := later (snd (__setitem__ tclk "k" (PyStr "v") w)) 1000 in
  truthy (default_ttl (self w)) = false /\
  is_None (PyStr "v") = false /\
  fst (__getitem__ tclk "k" w1) = Ok (PyStr "v") /\
  fst (__contains__ tclk "k" w1) = Ok true.
Proof.
  cbv zeta. split; [reflexivity|]. split; [reflexivity|].
  apply (X26_setitem_then_getitem tclk "k" (PyStr "v")
           (fresh (new_cache "c" 100 LRU None) 0) 1000); reflexivity.
Defined.

(** ** BufferLogHandler *)

Module BufferLogHandlerFacts.
Import BufferLogHandler.
Section Facts.
Context {E : Type}.
Implicit Types (s : BufferLogHandler.t E) (cs : list (BufferLogHandler.call E)).

Lemma flush_handlers (b : list E) (hs : list (list E)) :
  fold_left (fun hs entry => map (fun h => (h ++ [entry])%list) hs) b hs =
  map (fun h => (h ++ b)%list) hs.
Proof.
  revert hs. induction b as [|x b IH]; intros hs; cbn.
  - rewrite <- (map_id hs) at 1. apply map_ext. intros h.
    rewrite app_nil_r. reflexivity.
  - rewrite IH, map_map. apply map_ext. intros h.
    rewrite <- app_assoc. reflexivity.
Qed.

Lemma flush_delivered es s :
  Forall (fun h => (h ++ buffer s)%list = es) (handlers s) ->
  delivered es (flush s).
Proof.
  intros H. unfold delivered, flush. cbn [buffer handlers flush_size].
  rewrite flush_handlers. split; [|cbn; lia].
  rewrite Forall_map. revert H. apply Forall_impl. intros h Hh.
  rewrite app_nil_r. exact Hh.
Qed.

Lemma perform_delivered es c s :
  delivered es s ->
  delivered (es ++ match c with CEmit e => [e] | CFlush => [] end)%list
            (perform c s) /\
  flush_size (perform c s) = flush_size s /\
  List.length (handlers (perform c s)) = List.length (handlers s).
Proof.
  intros (Hh & Hb). destruct c as [e|]; cbn [perform].
  - unfold emit. cbn [buffer flush_size handlers].
    assert (Hes : Forall (fun h => (h ++ (buffer s ++ [e]) = es ++ [e])%list)
                         (handlers s)).
    { revert Hh. apply Forall_impl. intros h <-. apply app_assoc. }
    destruct (Z.leb_spec (flush_size s)
                (Z.of_nat (List.length (buffer s ++ [e])%list))) as [Hfull|Hroom].
    + split; [apply flush_delivered; exact Hes|].
      unfold flush. cbn [flush_size handlers buffer].
      rewrite flush_handlers, length_map. auto.
    + split; [|auto]. split; [exact Hes|].
      cbn [buffer flush_size]. lia.
  - rewrite app_nil_r. split; [apply flush_delivered, Hh|].
    unfold flush. cbn [flush_size handlers buffer].
    rewrite flush_handlers, length_map. auto.
Qed.

Lemma run_delivered es cs s :
  delivered es s ->
  delivered (es ++ emitted_by cs)%list (run cs s) /\
  flush_size (run cs s) = flush_size s /\
  List.length (handlers (run cs s)) = List.length (handlers s).
Proof.
  revert es s. induction cs as [|c cs IH]; intros es s Hd; cbn [run emitted_by].
  - rewrite app_nil_r. auto.
  - destruct (perform_delivered es c s Hd) as (Hd' & Hf & Hl).
    destruct (IH _ _ Hd') as (Hd'' & Hf' & Hl').
    rewrite Hf', Hl', Hf, Hl. split; [|auto].
    destruct c as [e|]; cbn [app] in *.
    + rewrite <- app_assoc in Hd''. exact Hd''.
    + rewrite app_nil_r in Hd''. exact Hd''.
Qed.

Lemma with_handlers_spec n s :
  buffer (with_handlers n s) = buffer s /\
  flush_size (with_handlers n s) = flush_size s /\
  handlers (with_handlers n s) = (handlers s ++ repeat [] n)%list.
Proof.
  revert s. induction n as [|n IH]; intros s; cbn [with_handlers repeat].
  - rewrite app_nil_r. auto.
  - destruct (IH (add_handler [] s)) as (Hb & Hf & Hh).
    rewrite Hb, Hf, Hh. unfold add_handler. cbn [buffer flush_size handlers].
    rewrite <- app_assoc. auto.
Qed.
End Facts.
End BufferLogHandlerFacts.

(** X28: a [BufferLogHandler] loses, repeats and reorders nothing.  After
    any sequence of [emit] and [flush] calls on a handler that forwards to
    [n] handlers which do not raise, each of them has been given, followed
    by what still waits in the buffer, exactly the entries emitted, in
    order; and the buffer holds fewer than [flush_size] entries (none when
    [flush_size <= 1]). *)
Theorem X28_buffer_handler_forwards_every_entry_in_order
    (E : Type) (flush_size : Z) (n : nat)
    (cs : list (BufferLogHandler.call E)) :
  let s := BufferLogHandler.run cs
             (BufferLogHandler.with_handlers n
                (BufferLogHandler.__init__ flush_size)) in
  List.length (BufferLogHandler.handlers s) = n /\
  Forall (fun h => (h ++ BufferLogHandler.buffer s)%list
                   = BufferLogHandler.emitted_by cs)
         (BufferLogHandler.handlers s) /\
  Z.of_nat (List.length (BufferLogHandler.buffer s)) < Z.max flush_size 1.
Proof.
  cbv zeta.
  set (s0 := BufferLogHandler.with_handlers n
               (BufferLogHandler.__init__ flush_size)).
  destruct (BufferLogHandlerFacts.with_handlers_spec n
              (BufferLogHandler.__init__ (E:=E) flush_size))
    as (Hb & Hf & Hh).
  fold s0 in Hb, Hf, Hh. cbn in Hb, Hf, Hh.
  destruct (BufferLogHandlerFacts.run_delivered [] cs s0)
    as ((Hd & Hlen) & Hfs & Hn).
  - split.
    + rewrite Hh, Hb. apply Forall_forall. intros h Hin.
      apply repeat_spec in Hin. subst h. reflexivity.
    + rewrite Hb, Hf. cbn. lia.
  - rewrite Hn, Hh, repeat_length. split; [reflexivity|].
    split; [exact Hd|]. rewrite Hfs, Hf in Hlen. exact Hlen.
Qed.

(** ** ApiKeyAuthProvider *)

(** X29: after [register_key(key, identity, permissions, roles, expires)],
    [validate_token(key)] succeeds with that identity, those roles and
    permissions when the key is not the empty string and either has no
    expiry or the clock reads no later than the expiry.  The empty string is
    never accepted ("No API key provided"); a key past its expiry is refused
    ("API key expired"); and the registration changes the answer for no
    other token. *)
Theorem X29_registered_api_key_is_validated
    (now : Z) (key identity : string) (perms rls : option (list string))
    (exp : option Z) (s : ApiKeyAuthProvider.t) :
  let s' := ApiKeyAuthProvider.register_key key identity perms rls exp s in
  (key = "" ->
     ApiKeyAuthProvider.validate_token now key s' =
     Ok (Auth.failure "No API key provided")) /\
  (key <> "" -> (forall x, exp = Some x -> now <= x) ->
     ApiKeyAuthProvider.validate_token now key s' =
     Ok (Auth.mkAuthResult true (Some identity)
           (ApiKeyAuthProvider.or_empty rls)
           (ApiKeyAuthProvider.or_empty perms) None None)) /\
  (key <> "" -> (exists x, exp = Some x /\ x < now) ->
     ApiKeyAuthProvider.validate_token now key s' =
     Ok (Auth.failure "API key expired")) /\
  (forall token, token <> key ->
     ApiKeyAuthProvider.validate_token now token s' =
     ApiKeyAuthProvider.validate_token now token s).
Proof.
  cbv zeta.
  unfold ApiKeyAuthProvider.validate_token, ApiKeyAuthProvider.authenticate,
         ApiKeyAuthProvider.get_or, ApiKeyAuthProvider.register_key, getitem.
  cbn [PyDict.lookup]. rewrite !String.eqb_refl.
  split; [|split; [|split]].
  - intros ->. reflexivity.
  - intros Hne Hlive. apply String.eqb_neq in Hne. rewrite Hne.
    cbv iota beta. rewrite Hne.
    rewrite PyDictFacts.contains_setitem, PyDictFacts.lookup_setitem,
            String.eqb_refl.
    cbn [ApiKeyAuthProvider.expires ApiKeyAuthProvider.identity
         ApiKeyAuthProvider.roles ApiKeyAuthProvider.permissions].
    destruct exp as [x|]; [|reflexivity].
    specialize (Hlive x eq_refl).
    destruct (Z.ltb_spec x now); [lia | reflexivity].
  - intros Hne (x & -> & Hlt). apply String.eqb_neq in Hne. rewrite Hne.
    cbv iota beta. rewrite Hne.
    rewrite PyDictFacts.contains_setitem, PyDictFacts.lookup_setitem,
            String.eqb_refl.
    cbn [ApiKeyAuthProvider.expires].
    destruct (Z.ltb_spec x now); [reflexivity | lia].
  - intros token Hne. apply String.eqb_neq in Hne.
    destruct (String.eqb token "") eqn:Ht; [reflexivity|].
    cbv iota beta. rewrite Ht.
    rewrite PyDictFacts.contains_setitem, PyDictFacts.lookup_setitem, Hne.
    reflexivity.
Qed.

Lemma X29_registered_api_key_is_validated_witness :
  let s' := ApiKeyAuthProvider.register_key "web_client_123" "web-app"
              (Some ["read"; "write"]) None (Some 100)
              ApiKeyAuthProvider.__init__ in
  "web_client_123" <> "" /\
  (forall x, Some 100 = Some x -> 100 <= x) /\
  (exists x, Some 100 = Some x /\ x < 101) /\
  ApiKeyAuthProvider.validate_token 100 "web_client_123" s' =
    Ok (Auth.mkAuthResult true (Some "web-app") [] ["read"; "write"] None None) /\
  ApiKeyAuthProvider.validate_token 101 "web_client_123" s' =
    Ok (Auth.failure "API key expired").
Proof.
  cbv zeta.
  assert (Hne : "web_client_123" <> "") by discriminate.
  assert (Hlive : forall x, Some 100 = Some x -> 100 <= x)
    by (intros x [= <-]; lia).
  assert (Hdead : exists x, Some 100 = Some x /\ x < 101)
    by (exists 100; split; [reflexivity | lia]).
  split; [exact Hne|]. split; [exact Hlive|]. split; [exact Hdead|].
  destruct (X29_registered_api_key_is_validated 100 "web_client_123" "web-app"
              (Some ["read"; "write"]) None (Some 100)
              ApiKeyAuthProvider.__init__) as (_ & H1 & _).
  destruct (X29_registered_api_key_is_validated 101 "web_client_123" "web-app"
              (Some ["read"; "write"]) None (Some 100)
              ApiKeyAuthProvider.__init__) as (_ & _ & H2 & _).
  split; [apply H1; assumption | apply H2; assumption].
Defined.
